(** * memegen: the rendering core of [memegen/domain/image.py]

    A shallow embedding of the module's functions and of the Python and
    Pillow operations they call, followed by the properties of its
    specification.

    Conventions.
    - A Python [int] is a [Z]; [//] is [Z.div] (both round towards minus
      infinity); an index into a string is a [nat].
    - A Python [str] is a [string], one [ascii] per character; a tuple of
      strings is a [list string].
    - A value whose type is only known at run time (the style fields of an
      [Image]) is a [value]; truthiness, [or] and [str.format] are written
      out on it.
    - A Python [float] is a binary64 [float] of the kernel; the conversions
      between [int] and [float] are written out, with the exceptions they
      raise.
    - A function that can raise returns a [result]; [x <- e ;; k] runs [k]
      on the value of [e] and passes an exception on.
    - A Pillow image is its mode, format tag and size, and a record of the
      operations that produced its pixels.
    - Calls to [log.info] have no effect on any result and are left out. *)

From Stdlib Require Import ZArith Lia List Sorted String Ascii Bool.
From Stdlib Require Import DecimalString Floats.
From Stdlib.Strings Require Import Byte.
From stdpp Require Import base tactics option list strings gmap.

Open Scope Z_scope.
Open Scope string_scope.

(** ** Python sequence operations on [str] *)

(** [text[:j]]. *)
Definition slice_to (j : nat) (text : string) : string :=
  String.substring 0 j text.

(** [text[j:]]. *)
Definition slice_from (j : nat) (text : string) : string :=
  String.substring j (String.length text - j)%nat text.

(** [text[1:-1]]. *)
Definition slice_interior (text : string) : string :=
  String.substring 1 (String.length text - 2)%nat text.

(** [c in text] for a one-character needle [c]. *)
Fixpoint str_contains (c : ascii) (text : string) : bool :=
  match text with
  | EmptyString => false
  | String d rest => Ascii.eqb d c || str_contains c rest
  end.

(** [text[i] == c] for [i] in [range(len(text))]. *)
Definition char_at_is (text : string) (c : ascii) (i : nat) : bool :=
  match String.get i text with
  | Some d => Ascii.eqb d c
  | None => false
  end.

(** [min(values)]. Python raises [ValueError] on an empty sequence; [_split]
    evaluates [min] only inside a loop over a sequence of the same length,
    hence never on an empty one, and the value chosen for [[]] is not
    observable. *)
Definition py_min (values : list Z) : Z :=
  match values with
  | [] => 0
  | v :: rest => fold_left Z.min rest v
  end.

(** ** [_split] *)

(** The [for i, j in zip(...)] loop with its [break]: the first pair whose
    proximity equals the minimum replaces [result]. *)
Fixpoint _split_loop (text : string) (least : Z) (pairs : list (Z * nat))
    (result : list string) : list string :=
  match pairs with
  | [] => result
  | (i, j) :: rest =>
      if (i =? least)%Z
      then [slice_to j text; slice_from (j + 1)%nat text]
      else _split_loop text least rest result
  end.

(** [space_indices] of [_split]. *)
Definition space_indices (text : string) : list nat :=
  List.filter (char_at_is text " ") (seq 0 (String.length text)).

(** One entry of [space_proximities]: [abs(i - len(text) // 2)]. *)
Definition proximity (text : string) (i : nat) : Z :=
  Z.abs (Z.of_nat i - Z.of_nat (String.length text) / 2).

Definition _split (text : string) : list string :=
  let result := [text] in
  if (3 <=? Z.of_nat (String.length text))%Z
     && str_contains " " (slice_interior text)
  then
    let space_indices := space_indices text in
    let space_proximities := map (proximity text) space_indices in
    _split_loop text (py_min space_proximities)
      (zip space_proximities space_indices) result
  else result.


(** ** Exceptions *)

Inductive exn : Type :=
  | IOError
  | ZeroDivisionError
  | OverflowError
  | ValueError.

Inductive result (A : Type) : Type :=
  | Ok (a : A)
  | Raise (e : exn).

Arguments Ok {A} a.
Arguments Raise {A} e.

Definition bind {A B : Type} (r : result A) (k : A -> result B) : result B :=
  match r with
  | Ok a => k a
  | Raise e => Raise e
  end.

Notation "x <- e ;; k" := (bind e (fun x => k))
  (at level 63, e at next level, right associativity).

(** A [for] loop whose body can raise: [body] takes the state the loop
    works on and the loop variable. *)
Fixpoint for_each {S A : Type} (items : list A) (state : S)
    (body : S -> A -> result S) : result S :=
  match items with
  | [] => Ok state
  | item :: rest => state <- body state item ;; for_each rest state body
  end.

(** [range(start, stop)]. *)
Definition py_range (start stop : Z) : list Z :=
  seqZ start (stop - start).

(** ** Python arithmetic on [int] and [float] *)

(** [float(z)]: the nearest binary64, [OverflowError] beyond the range. *)
Definition float_of_int (z : Z) : result float :=
  let x := SF2Prim (binary_normalize prec emax z 0 false) in
  if is_infinity x then Raise OverflowError else Ok x.

(** [int(x)]: truncation towards zero. *)
Definition int_of_float (x : float) : result Z :=
  match Prim2SF x with
  | S754_zero _ => Ok 0
  | S754_infinity _ => Raise OverflowError
  | S754_nan => Raise ValueError
  | S754_finite sign m e =>
      let magnitude :=
        if (0 <=? e)%Z then Z.shiftl (Z.pos m) e
        else Z.shiftr (Z.pos m) (- e) in
      Ok (if sign then - magnitude else magnitude)
  end.

(** [a / b] on two [int]s. The quotient of the converted operands is the
    correctly rounded quotient for operands below 2^53 in absolute value;
    the module divides pixel counts and small constants only. *)
Definition int_truediv (a b : Z) : result float :=
  if (b =? 0)%Z then Raise ZeroDivisionError
  else
    x <- float_of_int a ;;
    y <- float_of_int b ;;
    Ok (x / y)%float.

(** [a / x], [a * x], [a - x] and [x - a] for an [int] [a] and a [float]
    [x]: the [int] is converted first. *)
Definition int_div_float (a : Z) (x : float) : result float :=
  y <- float_of_int a ;;
  if is_zero x then Raise ZeroDivisionError else Ok (y / x)%float.

Definition int_mul_float (a : Z) (x : float) : result float :=
  y <- float_of_int a ;; Ok (y * x)%float.

Definition int_sub_float (a : Z) (x : float) : result float :=
  y <- float_of_int a ;; Ok (y - x)%float.

Definition float_sub_int (x : float) (a : Z) : result float :=
  y <- float_of_int a ;; Ok (x - y)%float.

(** [a < x] for an [int] [a] and a [float] [x]: Python compares the exact
    values. *)
Definition int_lt_float (a : Z) (x : float) : bool :=
  match Prim2SF x with
  | S754_zero _ => (a <? 0)%Z
  | S754_infinity sign => negb sign
  | S754_nan => false
  | S754_finite sign m e =>
      let mantissa := if sign then Z.neg m else Z.pos m in
      if (0 <=? e)%Z then (a <? Z.shiftl mantissa e)%Z
      else (Z.shiftl a (- e) <? mantissa)%Z
  end.

(** A coordinate: an [int] or a [float]. *)
Inductive num : Type :=
  | NInt (z : Z)
  | NFloat (x : float).

(** [n + a] for an [int] [a]. *)
Definition num_add_int (n : num) (a : Z) : result num :=
  match n with
  | NInt z => Ok (NInt (z + a))
  | NFloat x => y <- float_of_int a ;; Ok (NFloat (x + y)%float)
  end.

(** [bool(n)] for an optional [int] argument: [None] and 0 are false. *)
Definition given (n : option Z) : bool :=
  match n with
  | None => false
  | Some z => negb (z =? 0)%Z
  end.

(** *** Vocabulary of the splitter's specification *)

(** Index [k] holds a space that is neither the first nor the last
    character of [text]. *)
Definition interior_space (text : string) (k : nat) : Prop :=
  (1 <= k)%nat /\ (k + 1 < String.length text)%nat
  /\ String.get k text = Some " "%char.

(** [j] is the interior space closest to [len(text) // 2], the lowest index
    winning a tie. *)
Definition closest_interior_space (text : string) (j : nat) : Prop :=
  interior_space text j
  /\ forall k, interior_space text k ->
       proximity text j <= proximity text k
       /\ (proximity text k = proximity text j -> (j <= k)%nat).

(** ** Python values *)

(** The values the style fields of an [Image] take: [None], a [bool], an
    [int], a [str], or an object (a font) seen through what [bool()] and
    [str()] return on it. *)
Inductive value : Type :=
  | VNone
  | VBool (b : bool)
  | VInt (z : Z)
  | VStr (s : string)
  | VObj (truth : bool) (repr : string).

(** [bool(v)]. *)
Definition truthy (v : value) : bool :=
  match v with
  | VNone => false
  | VBool b => b
  | VInt z => negb (z =? 0)%Z
  | VStr s => negb (String.eqb s "")
  | VObj truth _ => truth
  end.

(** [v or w]. *)
Definition py_or (v w : value) : value :=
  if truthy v then v else w.

(** [any(values)]. *)
Definition py_any (values : list value) : bool :=
  existsb truthy values.

(** [str(z)] for an [int]. *)
Definition str_of_int (z : Z) : string :=
  NilZero.string_of_int (Z.to_int z).

(** ["{}".format(v)]. *)
Definition format_value (v : value) : string :=
  match v with
  | VNone => "None"
  | VBool true => "True"
  | VBool false => "False"
  | VInt z => str_of_int z
  | VStr s => s
  | VObj _ repr => repr
  end.

(** [s.encode('utf-8')] on characters below U+0100: one byte below U+0080,
    two bytes from there on. *)
Definition utf8_char (c : ascii) : list byte :=
  let n := N_of_ascii c in
  if (n <? 128)%N then [byte_of_ascii c]
  else [byte_of_ascii (ascii_of_N (192 + n / 64));
        byte_of_ascii (ascii_of_N (128 + n mod 64))].

Fixpoint encode_utf8 (s : string) : list byte :=
  match s with
  | EmptyString => []
  | String c rest => (utf8_char c ++ encode_utf8 rest)%list
  end.

(** [s.startswith("/")] and [s.endswith("/")]. *)
Definition startswith_sep (s : string) : bool :=
  String.prefix "/" s.

Fixpoint endswith_sep (s : string) : bool :=
  match s with
  | EmptyString => false
  | String c EmptyString => Ascii.eqb c "/"
  | String _ rest => endswith_sep rest
  end.

(** [os.path.join(a, *p)] of [posixpath]: a component that starts with the
    separator discards what precedes it; a separator is inserted unless the
    path so far is empty or ends with one. *)
Definition os_path_join (a : string) (p : list string) : string :=
  fold_left
    (fun path b =>
       if startswith_sep b then b
       else if String.eqb path "" || endswith_sep path
            then (path ++ b)%string
            else (path ++ "/" ++ b)%string)
    p a.

(** ** [hashlib] *)

(** The hash object of [hashlib.md5()]: created, fed bytes, read out. *)
Class Hashlib : Type := {
  md5_state : Type;
  md5 : md5_state;
  update : md5_state -> list byte -> md5_state;
  hexdigest : md5_state -> string;
}.

(** A hash object for evaluation: it keeps the bytes it was fed, and its
    digest spells them out, two hexadecimal digits a byte. *)
Definition hex_digit (n : N) : ascii :=
  if (n <? 10)%N then ascii_of_N (48 + n) else ascii_of_N (87 + n).

Fixpoint hex_of_bytes (bs : list byte) : string :=
  match bs with
  | [] => EmptyString
  | b :: rest =>
      let n := Byte.to_N b in
      String (hex_digit (n / 16)) (String (hex_digit (n mod 16))
                                     (hex_of_bytes rest))
  end.

Definition spelling_hash : Hashlib := {|
  md5_state := list byte;
  md5 := [];
  update := fun sha data => (sha ++ data)%list;
  hexdigest := hex_of_bytes;
|}.

(** ** [class Image] *)

Module Image.

(** The attributes [__init__] sets; of [template] and [text] the
    attributes [path] reads ([template.key], [text.path]). *)
Record t : Type := mk {
  root : option string;
  template_key : string;
  style : value;
  text_path : string;
  font : value;
  width : value;
  height : value;
  watermark : value;
}.

(** [bool(size)] for a [dict]. *)
Definition dict_truthy (size : gmap string value) : bool :=
  negb (bool_decide (size = ∅)).

(** [size.get(key)]. *)
Definition dict_get (size : gmap string value) (key : string) : value :=
  default VNone (size !! key).

(** [Image.__init__]; [size] is a [dict] or [None]. *)
Definition __init__ (template_key text_path : string) (root : option string)
    (style font : value) (size : option (gmap string value))
    (watermark : value) : t :=
  let sized :=
    match size with Some d => dict_truthy d | None => false end in
  {| root := root;
     template_key := template_key;
     style := style;
     text_path := text_path;
     font := font;
     width := if sized then dict_get (default ∅ size) "width" else VNone;
     height := if sized then dict_get (default ∅ size) "height" else VNone;
     watermark := watermark |}.

(** The body of the [for index, value in enumerate(values)] loop of
    [hash], [index] counting from its second argument. *)
Fixpoint hash_loop `{Hashlib} (sha : md5_state) (index : nat)
    (values : list value) : md5_state :=
  match values with
  | [] => sha
  | value :: rest =>
      let sha :=
        update sha
          (encode_utf8 (str_of_int (Z.of_nat index) ++ ":"
                        ++ format_value (py_or value (VStr "")))) in
      hash_loop sha (S index) rest
  end.

Definition hash `{Hashlib} (values : list value) : string :=
  let sha := md5 in
  hexdigest (hash_loop sha 0 values).

(** [not self.root]. *)
Definition root_missing (root : option string) : bool :=
  match root with
  | None => true
  | Some r => String.eqb r ""
  end.

(** The property [path]; [None] is Python's [None]. *)
Definition path `{Hashlib} (self : t) : option string :=
  if root_missing (root self) then None
  else
    let base :=
      os_path_join (default "" (root self))
        [template_key self; text_path self] in
    let custom :=
      [style self; font self; watermark self; width self; height self] in
    if py_any custom
    then
      let slug := hash custom in
      Some (base ++ "#" ++ slug ++ ".img")%string
    else Some (base ++ ".img")%string.

End Image.

(** *** Vocabulary of the variant key's specification *)

(** A style field is absent, or at its default, when Python takes it for
    false: [None], [""], [0], [False], or an object that says so. *)
Definition absent (v : value) : Prop := truthy v = false.

(** The serialization of one field as the specification words it: its
    index, a colon, and its value, the value empty for an absent field. *)
Definition serialize_field (index : nat) (v : value) : string :=
  (str_of_int (Z.of_nat index) ++ ":"
   ++ (if truthy v then format_value v else ""))%string.

(** The digest of the ordered fields: every field serialized in turn and
    fed to the hash object. *)
Definition digest_of_fields `{Hashlib} (fields : list value) : string :=
  hexdigest
    (fold_left update (map encode_utf8 (imap serialize_field fields)) md5).

(** The fields a variant key is derived from, in the order of [path]. *)
Definition style_fields (self : Image.t) : list value :=
  [Image.style self; Image.font self; Image.watermark self;
   Image.width self; Image.height self].

(** A path component that [os.path.join] takes as it is: it does not start
    with the separator. *)
Definition relative (component : string) : Prop :=
  startswith_sep component = false.

(** A path that is not empty and does not end with a separator, to which
    [os.path.join] appends one. *)
Definition open_ended (p : string) : Prop :=
  p <> EmptyString /\ endswith_sep p = false.

(** A field as [hash] formats it: [value or ""]. *)
Definition or_empty (v : value) : value := py_or v (VStr "").

(** *** Requests for evaluation *)

(** No style, font, size or watermark. *)
Definition plain_request : Image.t :=
  Image.__init__ "iw" "hello/world" (Some "images")
    VNone VNone None (VStr "").

(** A style and a size whose height is 0. *)
Definition styled_request : Image.t :=
  Image.__init__ "iw" "hello/world" (Some "images")
    (VStr "alt") VNone
    (Some (<["width" := VInt 500]> (<["height" := VInt 0]> ∅)))
    (VStr "").

(** ** Fonts and text measurement *)

(** The font object of [ImageFont.truetype(font, size)]: a font file at a
    size. *)
Record FreeTypeFont : Type := truetype {
  font_file : string;
  font_points : Z;
}.

(** What Pillow measures: [fontobj.getsize(text)] and
    [draw.multiline_textsize(text, fontobj)], each a (width, height) pair in
    pixels. The rasterizer is outside the module; the module's functions
    are defined for any. A measure answers at every size: FreeType's
    refusal of a size below 1 is not modelled, and the properties about
    sizes speak of sizes of at least 1 or of a size returned. *)
Class TextMeasure : Type := {
  getsize : FreeTypeFont -> string -> Z * Z;
  multiline_textsize : string -> FreeTypeFont -> Z * Z;
}.

(** ["\n"]. *)
Definition newline : string := String (ascii_of_nat 10) EmptyString.

(** A measure for evaluation: a fixed-pitch font whose every character is
    as wide and as high as the font size. *)
Fixpoint line_lengths (text : string) (current : Z) : list Z :=
  match text with
  | EmptyString => [current]
  | String c rest =>
      if Ascii.eqb c (ascii_of_nat 10)
      then current :: line_lengths rest 0
      else line_lengths rest (current + 1)
  end.

Definition fixed_pitch : TextMeasure := {|
  getsize := fun fontobj text =>
    (font_points fontobj * Z.of_nat (String.length text),
     font_points fontobj);
  multiline_textsize := fun text fontobj =>
    let lengths := line_lengths text 0 in
    (font_points fontobj * fold_left Z.max lengths 0,
     font_points fontobj * Z.of_nat (length lengths));
|}.

(** ** [_maximize_font_size] *)

(** The [while] loop; [fuel] bounds the number of iterations. The loop
    lowers [font_size] by one each time and stops at 1, so it runs fewer
    than [font_size] times ([_maximize_loop_fuel] below). *)
Fixpoint _maximize_loop `{TextMeasure} (fuel : nat) (font text : string)
    (max_size font_size : Z) (text_size : Z * Z) : Z :=
  match fuel with
  | O => font_size
  | S fuel =>
      if (max_size <? fst text_size)%Z && (1 <? font_size)%Z
      then
        let font_size := font_size - 1 in
        let fontobj := truetype font font_size in
        let text_size := getsize fontobj text in
        _maximize_loop fuel font text max_size font_size text_size
      else font_size
  end.

Definition _maximize_font_size `{TextMeasure} (font text : string)
    (max_size : Z) : Z :=
  let font_size := max_size in
  let fontobj := truetype font font_size in
  let text_size := getsize fontobj text in
  _maximize_loop (Z.to_nat max_size) font text max_size font_size text_size.

(** ** [_optimize_font_size] *)

Definition _optimize_font_size `{TextMeasure} (font text : string)
    (max_font_size min_font_size max_text_len : Z) : Z * string :=
  let fontobj := truetype font min_font_size in
  let text_size := getsize fontobj text in
  let phrases :=
    if (max_text_len <? fst text_size)%Z then _split text else [text] in
  let font_size := max_font_size / Z.of_nat (length phrases) in
  let font_size :=
    fold_left
      (fun font_size phrase =>
         Z.min (_maximize_font_size font phrase max_text_len) font_size)
      phrases font_size in
  let text := String.concat newline phrases in
  (font_size, text).

(** *** Vocabulary of the optimizer's specification *)

(** The lines [_optimize_font_size] lays the text out in. *)
Definition layout_lines `{TextMeasure} (font text : string)
    (min_font_size max_text_len : Z) : list string :=
  if (max_text_len <? fst (getsize (truetype font min_font_size) text))%Z
  then _split text else [text].

(** The measured width never shrinks when the font grows. *)
Definition width_monotone `{TextMeasure} : Prop :=
  forall (font text : string) (s1 s2 : Z),
    s1 <= s2 ->
    fst (getsize (truetype font s1) text)
    <= fst (getsize (truetype font s2) text).

(** ** Pillow images *)

Module ImageFile.

(** How the pixels of an image came about. *)
Inductive raster : Type :=
  | Decoded (path : string)
  | Converted (mode : string) (source : raster)
  | Resized (size : Z * Z) (resample : string) (source : raster)
  | Blank (mode : string) (size : Z * Z)
  | Pasted (onto : raster) (pasted : raster) (box : Z * Z)
  | Scaled (factor : float) (source : raster)
  | GaussianBlur (radius : Z) (source : raster)
  | Text (onto : raster) (xy : num * num) (text : string)
      (fill : Z * Z * Z) (font : FreeTypeFont) (align : string).

(** An image object: the attributes the module reads and writes, and its
    pixels. A new image has no format tag ([format] is [None]). Of Pillow's
    refusals the size checks of [resize] and [new] are kept; the others (a
    dimension beyond a C int, a filter on a palette image, a fill that does
    not suit the mode) are not modelled, and the properties speak of the
    image a call returns or of a call that is refused. *)
Record t : Type := mk {
  mode : string;
  format : option string;
  size : Z * Z;
  pixels : raster;
}.

Definition LANCZOS : string := "LANCZOS".

(** [image.format = tag]. *)
Definition set_format (image : t) (tag : string) : t :=
  {| mode := mode image; format := Some tag; size := size image;
     pixels := pixels image |}.

(** [image.convert(mode)]. *)
Definition convert (image : t) (new_mode : string) : t :=
  {| mode := new_mode; format := None; size := size image;
     pixels := Converted new_mode (pixels image) |}.

(** [image.resize(size, resample)]; Pillow raises [ValueError] unless
    both dimensions are at least 1. *)
Definition resize (image : t) (new_size : Z * Z) (resample : string)
    : result t :=
  if (fst new_size <? 1)%Z || (snd new_size <? 1)%Z then Raise ValueError
  else Ok {| mode := mode image; format := None; size := new_size;
             pixels := Resized new_size resample (pixels image) |}.

(** [Image.new(mode, size)]; Pillow raises [ValueError] on a negative
    dimension. *)
Definition new (new_mode : string) (new_size : Z * Z) : result t :=
  if (fst new_size <? 0)%Z || (snd new_size <? 0)%Z then Raise ValueError
  else Ok {| mode := new_mode; format := None; size := new_size;
             pixels := Blank new_mode new_size |}.

(** [image.paste(other, box)], in place. *)
Definition paste (image other : t) (box : Z * Z) : t :=
  {| mode := mode image; format := format image; size := size image;
     pixels := Pasted (pixels image) (pixels other) box |}.

(** [image.point(lambda p: p * factor)]. *)
Definition point (image : t) (factor : float) : t :=
  {| mode := mode image; format := None; size := size image;
     pixels := Scaled factor (pixels image) |}.

(** [image.filter(ImageFilter.GaussianBlur(radius))]. *)
Definition filter (image : t) (radius : Z) : t :=
  {| mode := mode image; format := None; size := size image;
     pixels := GaussianBlur radius (pixels image) |}.

(** [draw.multiline_text(xy, text, fill, font=font, align=align)] for the
    [draw] of [ImageDraw.Draw(image)]: it paints on [image] in place. *)
Definition multiline_text (image : t) (xy : num * num) (text : string)
    (fill : Z * Z * Z) (font : FreeTypeFont) (align : string) : t :=
  {| mode := mode image; format := format image; size := size image;
     pixels := Text (pixels image) xy text fill font align |}.

End ImageFile.

(** The image files [ImageFile.open] finds, by path, as they decode. *)
Class Files : Type := {
  stored : gmap string ImageFile.t;
}.

(** [ImageFile.open(path)]. *)
Definition ImageFile_open `{Files} (path : string) : result ImageFile.t :=
  match stored !! path with
  | Some image => Ok image
  | None => Raise IOError
  end.

(** 0.4, the binary64 that Python reads the literal as. *)
Definition darkening : float := 0x1.999999999999ap-2%float.

(** ** [_draw_outlined_text] *)

(** The target of the [draw_image] handle is passed in and handed back. *)
Definition _draw_outlined_text (draw_image : ImageFile.t)
    (text_position : num * num) (text : string) (font : FreeTypeFont)
    (font_size : Z) : result ImageFile.t :=
  let outline_range := Z.max 1 (font_size / 25) in
  draw_image <-
    for_each (py_range (- outline_range) (outline_range + 1)) draw_image
      (fun draw_image x =>
         for_each (py_range (- outline_range) (outline_range + 1)) draw_image
           (fun draw_image y =>
              pos_x <- num_add_int (fst text_position) x ;;
              pos_y <- num_add_int (snd text_position) y ;;
              Ok (ImageFile.multiline_text draw_image (pos_x, pos_y) text
                    (0, 0, 0) font "center"))) ;;
  Ok (ImageFile.multiline_text draw_image text_position text
        (255, 255, 255) font "center").

(** ** [_add_blurred_background] *)

Definition _add_blurred_background (foreground background : ImageFile.t)
    (width height : Z) : result ImageFile.t :=
  let '(base_width, base_height) := ImageFile.size foreground in
  let border_width := Z.min width (base_width + 2) in
  let border_height := Z.min height (base_height + 2) in
  let border_dimensions := (border_width, border_height) in
  border <- ImageFile.new "RGB" border_dimensions ;;
  let border :=
    ImageFile.paste border foreground
      ((border_width - base_width) / 2, (border_height - base_height) / 2) in
  let padded_dimensions := (width, height) in
  padded <- ImageFile.resize background padded_dimensions ImageFile.LANCZOS ;;
  let darkened := ImageFile.point padded darkening in
  let blurred := ImageFile.filter darkened 5 in
  let blurred := ImageFile.set_format blurred "PNG" in
  let '(blurred_width, blurred_height) := ImageFile.size blurred in
  let offset :=
    ((blurred_width - border_width) / 2,
     (blurred_height - border_height) / 2) in
  let blurred := ImageFile.paste blurred border offset in
  Ok blurred.

(** ** [_generate] *)

Definition _generate `{Files} `{TextMeasure} (top bottom font_path : string)
    (background : string) (width height : option Z)
    (watermark watermark_font_path : string) : result ImageFile.t :=
  background_image <- ImageFile_open background ;;
  let background_image :=
    if negb (String.eqb (ImageFile.mode background_image) "RGB"
             || String.eqb (ImageFile.mode background_image) "RGBA")
    then
      if bool_decide (ImageFile.format background_image = Some "JPEG")
      then
        ImageFile.set_format (ImageFile.convert background_image "RGB") "JPEG"
      else
        ImageFile.set_format (ImageFile.convert background_image "RGBA") "PNG"
    else background_image in

  (* Resize to a maximum height and width *)
  ratio <- int_truediv (fst (ImageFile.size background_image))
             (snd (ImageFile.size background_image)) ;;
  dimensions <-
    (if given width && given height
     then
       scaled <- int_mul_float (default 0 height) ratio ;;
       if int_lt_float (default 0 width) scaled
       then
         quotient <- int_div_float (default 0 width) ratio ;;
         scaled_height <- int_of_float quotient ;;
         Ok (default 0 width, scaled_height)
       else
         product <- int_mul_float (default 0 height) ratio ;;
         scaled_width <- int_of_float product ;;
         Ok (scaled_width, default 0 height)
     else if given width
     then
       quotient <- int_div_float (default 0 width) ratio ;;
       scaled_height <- int_of_float quotient ;;
       Ok (default 0 width, scaled_height)
     else if given height
     then
       product <- int_mul_float (default 0 height) ratio ;;
       scaled_width <- int_of_float product ;;
       Ok (scaled_width, default 0 height)
     else
       quotient <- int_div_float 600 ratio ;;
       scaled_height <- int_of_float quotient ;;
       Ok (600, scaled_height)) ;;
  image <- ImageFile.resize background_image dimensions ImageFile.LANCZOS ;;
  let image := ImageFile.set_format image "PNG" in

  (* Draw image *)
  fifth <- int_truediv (snd (ImageFile.size image)) 5 ;;
  max_font_size <- int_of_float fifth ;;
  twelfth <- int_truediv (snd (ImageFile.size image)) 12 ;;
  min_font_size_single_line <- int_of_float twelfth ;;
  let max_text_len := fst (ImageFile.size image) - 20 in
  let '(top_font_size, top) :=
    _optimize_font_size font_path top max_font_size
      min_font_size_single_line max_text_len in
  let '(bottom_font_size, bottom) :=
    _optimize_font_size font_path bottom max_font_size
      min_font_size_single_line max_text_len in

  let top_font := truetype font_path top_font_size in
  let bottom_font := truetype font_path bottom_font_size in

  let top_text_size := multiline_textsize top top_font in
  let bottom_text_size := multiline_textsize bottom bottom_font in

  (* Find top centered position for top text *)
  half_width <- int_truediv (fst (ImageFile.size image)) 2 ;;
  half_top <- int_truediv (fst top_text_size) 2 ;;
  let top_text_position_x := (half_width - half_top)%float in
  let top_text_position_y := 0 in
  let top_text_position :=
    (NFloat top_text_position_x, NInt top_text_position_y) in

  (* Find bottom centered position for bottom text *)
  half_width <- int_truediv (fst (ImageFile.size image)) 2 ;;
  half_bottom <- int_truediv (fst bottom_text_size) 2 ;;
  let bottom_text_size_x := (half_width - half_bottom)%float in
  seven_sixths <- int_truediv 7 6 ;;
  block_height <- int_mul_float (snd bottom_text_size) seven_sixths ;;
  bottom_text_size_y <- int_sub_float (snd (ImageFile.size image))
                          block_height ;;
  bottom_text_size_y <-
    (if negb (String.eqb watermark "")
     then float_sub_int bottom_text_size_y 5
     else Ok bottom_text_size_y) ;;
  let bottom_text_position :=
    (NFloat bottom_text_size_x, NFloat bottom_text_size_y) in

  image <- _draw_outlined_text image top_text_position
             top top_font top_font_size ;;
  image <- _draw_outlined_text image bottom_text_position
             bottom bottom_font bottom_font_size ;;

  (* Pad image if a specific dimension is requested *)
  image <-
    (if given width && given height
     then _add_blurred_background image background_image
            (default 0 width) (default 0 height)
     else Ok image) ;;

  (* Add watermark *)
  image <-
    (if negb (String.eqb watermark "")
     then
       let watermark_font := truetype watermark_font_path 15 in
       _draw_outlined_text image
         (NInt 3, NInt (snd (ImageFile.size image) - 20))
         watermark watermark_font 15
     else Ok image) ;;

  Ok image.

(** *** Backgrounds for evaluation *)

(** An opaque 400x300 JPEG photograph, a 400x300 PNG with an alpha
    channel and a 640x480 palette GIF. *)
Definition sample_files : Files := {|
  stored :=
    <["photo.jpg" :=
        {| ImageFile.mode := "RGB"; ImageFile.format := Some "JPEG";
           ImageFile.size := (400, 300);
           ImageFile.pixels := ImageFile.Decoded "photo.jpg" |}]>
    (<["logo.png" :=
        {| ImageFile.mode := "RGBA"; ImageFile.format := Some "PNG";
           ImageFile.size := (400, 300);
           ImageFile.pixels := ImageFile.Decoded "logo.png" |}]>
    (<["anim.gif" :=
        {| ImageFile.mode := "P"; ImageFile.format := Some "GIF";
           ImageFile.size := (640, 480);
           ImageFile.pixels := ImageFile.Decoded "anim.gif" |}]> ∅));
|}.

(** *** Vocabulary of the further properties *)

(** A hash object reads successive updates as one input: feeding [a] and
    then [b] is feeding [a ++ b], as the [hashlib] documentation states for
    [update]. *)
Definition streaming `{Hashlib} : Prop :=
  forall (sha : md5_state) (a b : list byte),
    update (update sha a) b = update sha (a ++ b)%list.

(** The text [Image.hash] feeds its hash object, chunk after chunk. *)
Definition fed_text (fields : list value) : string :=
  String.concat "" (imap serialize_field fields).

(** The offsets of the outline, in the order the two loops of
    [_draw_outlined_text] visit them. *)
Definition outline_offsets (outline_range : Z) : list (Z * Z) :=
  flat_map
    (fun x =>
       map (fun y => (x, y))
         (py_range (- outline_range) (outline_range + 1)))
    (py_range (- outline_range) (outline_range + 1)).

(** Black copies of [text] painted over [pixels], one per offset, around
    the integer position ([left], [upper]). *)
Definition black_copies (pixels : ImageFile.raster) (left upper : Z)
    (text : string) (font : FreeTypeFont) (offsets : list (Z * Z))
    : ImageFile.raster :=
  fold_left
    (fun painted offset =>
       ImageFile.Text painted
         (NInt (left + fst offset), NInt (upper + snd offset))
         text (0, 0, 0) font "center")
    offsets pixels.

(** The mode [_generate] works in on a background: RGB and RGBA are kept,
    a JPEG in another mode becomes RGB, anything else RGBA. *)
Definition working_mode (background : ImageFile.t) : string :=
  if String.eqb (ImageFile.mode background) "RGB"
     || String.eqb (ImageFile.mode background) "RGBA"
  then ImageFile.mode background
  else if bool_decide (ImageFile.format background = Some "JPEG")
       then "RGB" else "RGBA".

(** *** Signs of floats *)

(** A binary64 seen through [Prim2SF] carries the sign [negative], or is
    not a number. Zeros and infinities carry a sign too. *)
Definition sf_signed (negative : bool) (x : spec_float) : Prop :=
  match x with
  | S754_zero sign | S754_infinity sign | S754_finite sign _ _ =>
      sign = negative
  | S754_nan => True
  end.

(** Above zero: a positive finite number or plus infinity. *)
Definition sf_positive (x : spec_float) : Prop :=
  match x with
  | S754_infinity false | S754_finite false _ _ => True
  | _ => False
  end.

(** * Properties *)

(** ** Strings and slices *)

Lemma length_substring_0 (j : nat) (s : string) :
  (j <= String.length s)%nat -> String.length (String.substring 0 j s) = j.
Proof.
  revert j. induction s as [|c s IH]; intros [|j] H; simpl in *;
    try reflexivity; try lia.
  f_equal. apply IH. lia.
Qed.

Lemma length_substring_tail (j : nat) (s : string) :
  String.length (String.substring j (String.length s - j) s)
  = (String.length s - j)%nat.
Proof.
  revert j. induction s as [|c s IH]; intros [|j]; simpl; try reflexivity.
  - f_equal. specialize (IH 0%nat). rewrite Nat.sub_0_r in IH. exact IH.
  - apply IH.
Qed.

Lemma substring_tail_0 (s : string) :
  String.substring 0 (String.length s) s = s.
Proof. induction s as [|c s IH]; simpl; [reflexivity | now rewrite IH]. Qed.

(** Cutting a string at a character it holds. *)
Lemma get_cut (j : nat) (c : ascii) (s : string) :
  String.get j s = Some c ->
  s = (slice_to j s ++ String c (slice_from (j + 1) s))%string.
Proof.
  unfold slice_to, slice_from. rewrite Nat.add_1_r. revert j.
  induction s as [|d s IH]; intros [|j] H; simpl in *; try discriminate.
  - injection H as ->. rewrite Nat.sub_0_r, substring_tail_0. reflexivity.
  - change (String d s
            = String d (String.substring 0 j s
                        ++ String c (String.substring (S j)
                                       (String.length s - S j) s))%string).
    f_equal. apply IH. exact H.
Qed.

Lemma get_lt (j : nat) (c : ascii) (s : string) :
  String.get j s = Some c -> (j < String.length s)%nat.
Proof.
  revert j. induction s as [|d s IH]; intros [|j] H; simpl in *;
    try discriminate; try lia.
  apply IH in H. lia.
Qed.

Lemma str_contains_get (c : ascii) (s : string) :
  str_contains c s = true <-> exists i, String.get i s = Some c.
Proof.
  induction s as [|d s IH]; simpl.
  - split; [discriminate | intros [i H]; discriminate].
  - rewrite orb_true_iff, IH. split.
    + intros [H | [i H]].
      * apply Ascii.eqb_eq in H. subst. now exists 0%nat.
      * now exists (S i).
    + intros [[|i] H].
      * left. injection H as ->. apply Ascii.eqb_refl.
      * right. now exists i.
Qed.

Lemma get_substring (n m i : nat) (s : string) :
  String.get i (String.substring n m s)
  = if (i <? m)%nat then String.get (n + i) s else None.
Proof.
  revert n m i. induction s as [|d s IH]; intros n m i.
  - assert (E : forall k, String.get k EmptyString = None) by (now intros []).
    replace (String.substring n m EmptyString) with EmptyString
      by (now destruct n, m).
    rewrite !E. now destruct (i <? m)%nat.
  - destruct n as [|n].
    + destruct m as [|m]; simpl.
      * reflexivity.
      * destruct i as [|i]; simpl; [reflexivity|].
        rewrite IH. simpl. reflexivity.
    + simpl. apply IH.
Qed.

(** The guard of [_split] says exactly that an interior space exists. *)
Lemma guard_interior_space (text : string) :
  (3 <=? Z.of_nat (String.length text))%Z
    && str_contains " " (slice_interior text) = true
  <-> exists k, interior_space text k.
Proof.
  unfold slice_interior, interior_space.
  rewrite andb_true_iff, Z.leb_le, str_contains_get. split.
  - intros [Hlen [i Hi]]. rewrite get_substring in Hi.
    destruct (i <? String.length text - 2)%nat eqn:E; [|discriminate].
    apply Nat.ltb_lt in E. exists (1 + i)%nat. repeat split; try lia. exact Hi.
  - intros [k (H1 & H2 & H3)]. split; [lia|].
    exists (k - 1)%nat. rewrite get_substring.
    replace (1 + (k - 1))%nat with k by lia.
    destruct (k - 1 <? String.length text - 2)%nat eqn:E; [exact H3|].
    apply Nat.ltb_ge in E. lia.
Qed.

(** ** The search for the split point *)

Lemma char_at_is_true (text : string) (c : ascii) (i : nat) :
  char_at_is text c i = true <-> String.get i text = Some c.
Proof.
  unfold char_at_is. destruct (String.get i text) as [d|].
  - split.
    + intros H. apply Ascii.eqb_eq in H. now subst.
    + intros H. injection H as ->. apply Ascii.eqb_refl.
  - split; discriminate.
Qed.

Lemma in_space_indices (text : string) (j : nat) :
  In j (space_indices text) <-> String.get j text = Some " "%char.
Proof.
  unfold space_indices. rewrite filter_In, in_seq, char_at_is_true.
  split; [tauto|]. intros H. split; [|exact H]. apply get_lt in H. lia.
Qed.

(** [range] enumerates upwards, and filtering keeps the order. *)
Lemma filter_seq_ascending (p : nat -> bool) (len start : nat) :
  StronglySorted lt (List.filter p (seq start len)).
Proof.
  revert start. induction len as [|len IH]; intros start; simpl.
  - constructor.
  - destruct (p start); [|apply IH]. constructor; [apply IH|].
    apply List.Forall_forall. intros k Hk. apply filter_In in Hk as [Hk _].
    apply in_seq in Hk. lia.
Qed.

Lemma py_min_fold (acc : Z) (values : list Z) :
  fold_left Z.min values acc <= acc
  /\ (forall v, In v values -> fold_left Z.min values acc <= v)
  /\ (fold_left Z.min values acc = acc \/ In (fold_left Z.min values acc) values).
Proof.
  revert acc. induction values as [|w values IH]; intros acc; simpl.
  - split; [lia|]. split; [tauto | now left].
  - destruct (IH (Z.min acc w)) as (H1 & H2 & H3). repeat split.
    + lia.
    + intros v [<- | Hv]; [lia | now apply H2].
    + destruct H3 as [H3 | H3]; [|tauto].
      rewrite H3. destruct (Z.min_spec acc w) as [[_ ->] | [_ ->]]; tauto.
Qed.

(** On a non-empty sequence [min] returns a least element. *)
Lemma py_min_least (values : list Z) :
  values <> [] ->
  In (py_min values) values /\ forall v, In v values -> py_min values <= v.
Proof.
  destruct values as [|w values]; [congruence|]. intros _. simpl.
  destruct (py_min_fold w values) as (H1 & H2 & H3). split.
  - destruct H3 as [-> | H3]; tauto.
  - intros v [<- | Hv]; [exact H1 | now apply H2].
Qed.

(** The loop returns at the first index whose proximity is [least]. *)
Lemma _split_loop_find (text : string) (least : Z) (f : nat -> Z)
    (indices : list nat) (result : list string) :
  _split_loop text least (zip (map f indices) indices) result
  = match List.find (fun j => (f j =? least)%Z) indices with
    | Some j => [slice_to j text; slice_from (j + 1) text]
    | None => result
    end.
Proof.
  induction indices as [|i indices IH]; simpl; [reflexivity|].
  destruct (f i =? least)%Z; [reflexivity | exact IH].
Qed.

Lemma find_first_ascending (p : nat -> bool) (indices : list nat) (j : nat) :
  StronglySorted lt indices ->
  List.find p indices = Some j ->
  forall k, In k indices -> p k = true -> (j <= k)%nat.
Proof.
  induction 1 as [|i indices Hs IH Hall]; simpl; [discriminate|].
  destruct (p i) eqn:Hp.
  - intros [= <-] k [<- | Hk] _; [lia|].
    rewrite List.Forall_forall in Hall. apply Hall in Hk. lia.
  - intros Hf k [<- | Hk] Hpk; [congruence|]. now apply IH.
Qed.

Lemma find_exists (p : nat -> bool) (indices : list nat) (k : nat) :
  In k indices -> p k = true -> exists j, List.find p indices = Some j.
Proof.
  induction indices as [|i indices IH]; simpl; [tauto|].
  intros Hk Hp. destruct (p i) eqn:E; [eauto|].
  destruct Hk as [<- | Hk]; [congruence | now apply IH].
Qed.

(** What the search of [_split] returns once its guard has passed: it cuts
    at a space whose proximity is least among all spaces of [text], the
    lowest such index. *)
Lemma _split_search (text : string) (k0 : nat) :
  String.get k0 text = Some " "%char ->
  exists j,
    _split_loop text (py_min (map (proximity text) (space_indices text)))
      (zip (map (proximity text) (space_indices text)) (space_indices text))
      [text]
    = [slice_to j text; slice_from (j + 1) text]
    /\ String.get j text = Some " "%char
    /\ forall k, String.get k text = Some " "%char ->
         proximity text j <= proximity text k
         /\ (proximity text k = proximity text j -> (j <= k)%nat).
Proof.
  intros Hk0. rewrite _split_loop_find.
  set (indices := space_indices text).
  set (least := py_min (map (proximity text) indices)).
  assert (Hne : map (proximity text) indices <> []).
  { apply in_space_indices in Hk0. fold indices in Hk0.
    destruct indices; [destruct Hk0 | discriminate]. }
  destruct (py_min_least _ Hne) as [Hin Hle]. fold least in Hin, Hle.
  apply in_map_iff in Hin as (k1 & Hk1 & Hk1in).
  destruct (find_exists (fun j => (proximity text j =? least)%Z) indices k1)
    as [j Hj]; [exact Hk1in | now apply Z.eqb_eq |].
  exists j. rewrite Hj. split; [reflexivity|].
  pose proof (find_some _ _ Hj) as [Hjin Hjp]. apply Z.eqb_eq in Hjp.
  split; [now apply in_space_indices|].
  intros k Hk. apply in_space_indices in Hk. fold indices in Hk. split.
  - rewrite Hjp. apply Hle. now apply in_map.
  - intros Heq. apply (find_first_ascending _ _ _
      (filter_seq_ascending _ _ _) Hj k Hk).
    apply Z.eqb_eq. congruence.
Qed.

(** A space that is least in proximity among all spaces, lowest index
    first, lies in the interior as soon as some space does. *)
Lemma least_space_is_interior (text : string) (j k : nat) :
  interior_space text k ->
  (j < String.length text)%nat ->
  proximity text j <= proximity text k ->
  (proximity text k = proximity text j -> (j <= k)%nat) ->
  (1 <= j)%nat /\ (j + 1 < String.length text)%nat.
Proof.
  unfold interior_space, proximity. intros (H1 & H2 & _) Hj Hle Htie.
  set (n := String.length text) in *.
  assert (Hmid : 2 * (Z.of_nat n / 2) <= Z.of_nat n < 2 * (Z.of_nat n / 2) + 2)
    by (pose proof (Z.div_mod (Z.of_nat n) 2); pose proof (Z.mod_pos_bound (Z.of_nat n) 2); lia).
  remember (Z.of_nat n / 2) as mid.
  destruct (Nat.eq_dec j 0%nat) as [-> | Hj0]; [lia|].
  destruct (Nat.eq_dec (j + 1)%nat n) as [Hlast | Hlast]; [|lia].
  assert (Z.of_nat j = Z.of_nat n - 1) by lia.
  destruct (Z.eq_dec (Z.abs (Z.of_nat k - mid)) (Z.abs (Z.of_nat j - mid)))
    as [E | E]; [specialize (Htie E)|]; lia.
Qed.

(** With an interior space in [text], [_split] cuts at the closest interior
    space. *)
Lemma _split_cut (text : string) :
  (exists k, interior_space text k) ->
  exists j, closest_interior_space text j
    /\ _split text = [slice_to j text; slice_from (j + 1) text].
Proof.
  intros Hex. pose proof Hex as Hguard. apply guard_interior_space in Hguard.
  destruct Hex as [k0 Hk0]. unfold _split. rewrite Hguard.
  destruct (_split_search text k0) as (j & Hloop & Hget & Hleast);
    [apply Hk0|].
  exists j. split; [|exact Hloop].
  destruct (Hleast k0 (proj2 (proj2 Hk0))) as [Hle Htie].
  destruct (least_space_is_interior text j k0 Hk0 (get_lt _ _ _ Hget) Hle Htie)
    as [Hj1 Hj2].
  split; [now repeat split|].
  intros k Hk. apply Hleast, Hk.
Qed.

Lemma _split_no_cut (text : string) :
  ~ (exists k, interior_space text k) -> _split text = [text].
Proof.
  intros Hno. unfold _split.
  destruct ((3 <=? Z.of_nat (String.length text))%Z
            && str_contains " " (slice_interior text)) eqn:E; [|reflexivity].
  apply guard_interior_space in E. contradiction.
Qed.

Lemma nonempty_of_length (s : string) :
  (1 <= String.length s)%nat -> s <> EmptyString.
Proof. intros H ->. simpl in H. lia. Qed.

(** C1. For every string [s] of length at least 3 with a space at an index
    that is neither the first nor the last, [_split s] is a pair of two
    non-empty strings, and the first half, one space and the second half
    concatenate to [s]. *)
Theorem _split_halves_rebuild_text (s : string) :
  (3 <= String.length s)%nat ->
  (exists k, interior_space s k) ->
  exists a b : string,
    _split s = [a; b]
    /\ a <> EmptyString /\ b <> EmptyString
    /\ (a ++ " " ++ b)%string = s.
Proof.
  intros _ Hex. destruct (_split_cut s Hex) as (j & [Hj _] & Hsplit).
  destruct Hj as (Hj1 & Hj2 & Hget).
  exists (slice_to j s), (slice_from (j + 1) s). split; [exact Hsplit|].
  repeat split.
  - apply nonempty_of_length. unfold slice_to.
    rewrite length_substring_0; lia.
  - apply nonempty_of_length. unfold slice_from.
    rewrite length_substring_tail. lia.
  - symmetry. apply (get_cut j " "%char s Hget).
Qed.

Lemma _split_halves_rebuild_text_witness :
  exists a b : string,
    _split "Hello, world!" = [a; b]
    /\ a <> EmptyString /\ b <> EmptyString
    /\ (a ++ " " ++ b)%string = "Hello, world!".
Proof.
  apply _split_halves_rebuild_text.
  - simpl. lia.
  - exists 6%nat. unfold interior_space. simpl. repeat split; lia.
Defined.

(** C6. A string of length at least 3 with an interior space is cut at the
    interior space closest to [len(text) // 2], the lowest index among
    equally close ones, and the halves are the characters before and after
    that index, the space itself left out; a string shorter than 3 or
    without an interior space comes back alone, unchanged. *)
Theorem _split_at_closest_interior_space (text : string) :
  ((3 <= String.length text)%nat /\ (exists k, interior_space text k) ->
   exists j, closest_interior_space text j
     /\ _split text = [slice_to j text; slice_from (j + 1) text]
     /\ String.length (slice_to j text) = j
     /\ String.length (slice_from (j + 1) text)
        = (String.length text - (j + 1))%nat)
  /\ (~ ((3 <= String.length text)%nat /\ exists k, interior_space text k) ->
      _split text = [text]).
Proof.
  split.
  - intros [_ Hex]. destruct (_split_cut text Hex) as (j & Hj & Hsplit).
    exists j. split; [exact Hj|]. split; [exact Hsplit|]. split.
    + unfold slice_to. apply length_substring_0.
      destruct Hj as [(_ & Hj & _) _]. lia.
    + unfold slice_from. apply length_substring_tail.
  - intros Hno. apply _split_no_cut. intros [k Hk]. apply Hno.
    split; [|now exists k]. destruct Hk as (H1 & H2 & _). lia.
Qed.

Lemma _split_at_closest_interior_space_witness :
  (exists j, closest_interior_space "abc d efg" j
     /\ _split "abc d efg" = [slice_to j "abc d efg";
                               slice_from (j + 1) "abc d efg"]
     /\ String.length (slice_to j "abc d efg") = j
     /\ String.length (slice_from (j + 1) "abc d efg")
        = (String.length "abc d efg" - (j + 1))%nat)
  /\ _split " ab " = [" ab "].
Proof.
  split.
  - apply (proj1 (_split_at_closest_interior_space "abc d efg")).
    split; [simpl; lia|]. exists 3%nat. unfold interior_space. simpl.
    repeat split; lia.
  - apply (proj2 (_split_at_closest_interior_space " ab ")).
    intros [_ [k (H1 & H2 & H3)]]. simpl in H2.
    assert (Hk : k = 1%nat \/ k = 2%nat) by lia.
    destruct Hk as [-> | ->]; discriminate H3.
Defined.

Example _split_hello : _split "Hello, world!" = ["Hello,"; "world!"].
Proof. reflexivity. Qed.

Example _split_phrase :
  _split "This is a phrase that can be split."
  = ["This is a phrase"; "that can be split."].
Proof. reflexivity. Qed.

Example _split_unsplittable :
  _split "This_is_a_phrase_that_can_not_be_split."
  = ["This_is_a_phrase_that_can_not_be_split."].
Proof. reflexivity. Qed.

(** A tie between two interior spaces goes to the lower index. *)
Example _split_tie : _split "abc d efg" = ["abc"; "d efg"].
Proof. reflexivity. Qed.

(** ** The variant key *)

Lemma serialize_field_or (index : nat) (v : value) :
  serialize_field index v
  = (str_of_int (Z.of_nat index) ++ ":"
     ++ format_value (py_or v (VStr "")))%string.
Proof. unfold serialize_field, py_or. now destruct (truthy v). Qed.

Lemma hash_loop_fold `{Hashlib} (values : list value) :
  forall (sha : md5_state) (index : nat),
    Image.hash_loop sha index values
    = fold_left update
        (map encode_utf8
           (imap (fun k v => serialize_field (index + k) v) values))
        sha.
Proof.
  induction values as [|v values IH]; intros sha index; [reflexivity|].
  cbn [Image.hash_loop imap map fold_left]. rewrite IH.
  rewrite serialize_field_or, Nat.add_0_r. f_equal. f_equal.
  apply imap_ext. intros k w _. cbn. f_equal. lia.
Qed.

(** [hash] computes the digest of the specification. *)
Lemma hash_digest_of_fields `{Hashlib} (values : list value) :
  Image.hash values = digest_of_fields values.
Proof.
  unfold Image.hash, digest_of_fields. now rewrite hash_loop_fold.
Qed.

Lemma py_any_false (values : list value) :
  py_any values = false <-> Forall absent values.
Proof.
  unfold py_any, absent. induction values as [|v values IH]; cbn.
  - split; [constructor | reflexivity].
  - rewrite orb_false_iff, IH. split.
    + intros [Hv Hvs]. now constructor.
    + intros Hall. inversion Hall; subst. now split.
Qed.

Lemma string_app_inv_head (p a b : string) :
  (p ++ a)%string = (p ++ b)%string -> a = b.
Proof.
  induction p as [|c p IH]; cbn; [tauto|]. intros [= E]. now apply IH.
Qed.

Lemma string_app_assoc (a b c : string) :
  (a ++ (b ++ c))%string = ((a ++ b) ++ c)%string.
Proof.
  induction a as [|x a IH]; [reflexivity|].
  change (String x (a ++ (b ++ c)) = String x ((a ++ b) ++ c))%string.
  now rewrite IH.
Qed.

Lemma endswith_sep_app (a b : string) :
  b <> EmptyString -> endswith_sep (a ++ b) = endswith_sep b.
Proof.
  intros Hb. induction a as [|c a IH]; [reflexivity|].
  change (String c a ++ b)%string with (String c (a ++ b)%string).
  cbn [endswith_sep]. destruct (a ++ b)%string eqn:E; [|exact IH].
  destruct a; [exact (False_ind _ (Hb E)) | discriminate E].
Qed.

(** [os.path.join] on components that are not absolute and leave no
    trailing separator is the components joined by ["/"]. *)
Lemma os_path_join_plain (r key tp : string) :
  open_ended r -> relative key -> open_ended key -> relative tp ->
  os_path_join r [key; tp] = (r ++ "/" ++ key ++ "/" ++ tp)%string.
Proof.
  unfold open_ended, relative, os_path_join. intros [Hr1 Hr2] Hk [Hk1 Hk2] Ht.
  cbn [fold_left]. rewrite Hk, Ht, Hr2.
  assert (Er : String.eqb r "" = false) by now apply String.eqb_neq.
  rewrite Er. cbn [orb].
  assert (E1 : String.eqb (r ++ "/" ++ key) "" = false).
  { apply String.eqb_neq. destruct r; [congruence | discriminate]. }
  assert (E2 : endswith_sep (r ++ "/" ++ key) = false).
  { rewrite endswith_sep_app.
    - change ("/" ++ key)%string with (String "/" key).
      cbn [endswith_sep]. destruct key; [congruence | exact Hk2].
    - discriminate. }
  rewrite E1, E2. cbn [orb].
  rewrite <- !string_app_assoc. reflexivity.
Qed.

Lemma path_unfold `{Hashlib} (self : Image.t) (r : string) :
  Image.root self = Some r -> r <> EmptyString ->
  Image.path self
  = let base :=
      os_path_join r [Image.template_key self; Image.text_path self] in
    if py_any (style_fields self)
    then Some (base ++ "#" ++ Image.hash (style_fields self) ++ ".img")%string
    else Some (base ++ ".img")%string.
Proof.
  intros Hroot Hr. unfold Image.path. rewrite Hroot. cbn [Image.root_missing].
  apply String.eqb_neq in Hr. rewrite Hr. reflexivity.
Qed.

(** An absolute text path replaces the base: the path of this request is
    not [images/iw//etc/cron.d/x.img]. *)
Lemma path_base_is_a_join :
  let self :=
    Image.__init__ "iw" "/etc/cron.d/x" (Some "images")
      VNone VNone None (VStr "") in
  Image.root self = Some "images"
  /\ Forall absent (style_fields self)
  /\ Image.path (H := spelling_hash) self = Some "/etc/cron.d/x.img"
  /\ Image.path (H := spelling_hash) self
     <> Some ("images" ++ "/" ++ Image.template_key self ++ "/"
              ++ Image.text_path self ++ ".img")%string.
Proof.
  cbn zeta. split; [reflexivity|]. split.
  - apply py_any_false. reflexivity.
  - split; [reflexivity | discriminate].
Qed.

(** C2 (amended). With a non-empty root, [Image.path] is the base followed
    by [".img"], with nothing in between, exactly when all five style
    fields (style, font, watermark, width, height) are absent or at their
    default; otherwise it is the base, ["#"], the digest of the five fields
    serialized in order as [index:value] (an absent field as its index and
    an empty value), and [".img"]. The base is
    [os.path.join(root, templateKey, textPath)]; it is
    [root/templateKey/textPath] when root and template key are not empty
    and do not end with the separator, and template key and text path do
    not start with it. *)
Theorem path_is_variant_key `{Hashlib} (self : Image.t) (r : string) :
  Image.root self = Some r -> r <> EmptyString ->
  let base :=
    os_path_join r [Image.template_key self; Image.text_path self] in
  (Forall absent (style_fields self) ->
   Image.path self = Some (base ++ ".img")%string)
  /\ (~ Forall absent (style_fields self) ->
      Image.path self
      = Some (base ++ "#" ++ digest_of_fields (style_fields self)
              ++ ".img")%string)
  /\ (Image.path self = Some (base ++ ".img")%string
      <-> Forall absent (style_fields self))
  /\ (open_ended r -> relative (Image.template_key self) ->
      open_ended (Image.template_key self) ->
      relative (Image.text_path self) ->
      base = (r ++ "/" ++ Image.template_key self ++ "/"
              ++ Image.text_path self)%string).
Proof.
  intros Hroot Hr base. pose proof (path_unfold self r Hroot Hr) as Hpath.
  cbn zeta in Hpath. fold base in Hpath.
  destruct (py_any (style_fields self)) eqn:Hany.
  - assert (Hnot : ~ Forall absent (style_fields self)).
    { intros Hall. apply py_any_false in Hall. congruence. }
    repeat split.
    + intros Hall. contradiction.
    + intros _. rewrite Hpath, hash_digest_of_fields. reflexivity.
    + rewrite Hpath. intros [= E]. apply string_app_inv_head in E.
      discriminate E.
    + intros Hall. contradiction.
    + apply os_path_join_plain.
  - assert (Hall : Forall absent (style_fields self))
      by now apply py_any_false.
    repeat split.
    + intros _. exact Hpath.
    + intros Hnot. contradiction.
    + intros _. exact Hall.
    + intros _. exact Hpath.
    + apply os_path_join_plain.
Qed.

Lemma path_is_variant_key_witness :
  let H := spelling_hash in
  let self := styled_request in
  let base :=
    os_path_join "images" [Image.template_key self; Image.text_path self] in
  (Forall absent (style_fields self) ->
   Image.path self = Some (base ++ ".img")%string)
  /\ (~ Forall absent (style_fields self) ->
      Image.path self
      = Some (base ++ "#" ++ digest_of_fields (style_fields self)
              ++ ".img")%string)
  /\ (Image.path self = Some (base ++ ".img")%string
      <-> Forall absent (style_fields self))
  /\ (open_ended "images" -> relative (Image.template_key self) ->
      open_ended (Image.template_key self) ->
      relative (Image.text_path self) ->
      base = ("images" ++ "/" ++ Image.template_key self ++ "/"
              ++ Image.text_path self)%string).
Proof.
  intros H self.
  apply (path_is_variant_key (H := H) self "images").
  - reflexivity.
  - discriminate.
Defined.

Example path_plain_request :
  Image.path (H := spelling_hash) plain_request
  = Some "images/iw/hello/world.img".
Proof. reflexivity. Qed.

(** The fields of [styled_request] are fed to the hash object as
    ["0:alt"], ["1:"], ["2:"], ["3:500"], ["4:"]. *)
Example path_styled_request :
  Image.path (H := spelling_hash) styled_request
  = Some ("images/iw/hello/world#"
          ++ hex_of_bytes (encode_utf8 "0:alt1:2:3:5004:") ++ ".img")%string.
Proof. vm_compute. reflexivity. Qed.

Lemma hash_loop_or_empty `{Hashlib} (vs : list value) :
  forall (ws : list value) (sha : md5_state) (index : nat),
    map or_empty vs = map or_empty ws ->
    Image.hash_loop sha index vs = Image.hash_loop sha index ws.
Proof.
  unfold or_empty.
  induction vs as [|v vs IH]; intros [|w ws] sha index E;
    try discriminate E; [reflexivity|].
  cbn [map] in E. injection E as Ev Evs.
  cbn [Image.hash_loop]. rewrite Ev. now apply IH.
Qed.

(** C10. [Image.hash] sees each field only through [field or ""]: two
    lists of fields of equal length that agree element by element once
    every falsy value is replaced by the empty string have the same digest,
    and a request with style [None] has the same path as the request with
    style [""] and all else equal. *)
Theorem hash_sees_fields_through_or_empty `{Hashlib} :
  (forall vs ws : list value,
      length vs = length ws ->
      map or_empty vs = map or_empty ws ->
      Image.hash vs = Image.hash ws)
  /\ (forall (key tp : string) (root : option string) (font : value)
        (size : option (gmap string value)) (watermark : value),
      Image.path (Image.__init__ key tp root VNone font size watermark)
      = Image.path (Image.__init__ key tp root (VStr "") font size watermark)).
Proof.
  split.
  - intros vs ws _ E. unfold Image.hash. f_equal.
    now apply hash_loop_or_empty.
  - intros key tp root font size watermark. unfold Image.path.
    cbn [Image.__init__ Image.root Image.template_key Image.text_path
         Image.style Image.font Image.watermark Image.width Image.height].
    destruct (Image.root_missing root); [reflexivity|].
    unfold py_any. cbn [existsb].
    change (truthy (VStr "")) with (truthy VNone).
    match goal with
    | |- context [orb ?a ?b] => destruct (orb a b); [|reflexivity]
    end.
    reflexivity.
Qed.

Lemma hash_sees_fields_through_or_empty_witness :
  Image.hash (H := spelling_hash) [VNone; VInt 0; VStr "x"; VBool false]
  = Image.hash (H := spelling_hash)
      [VStr ""; VObj false "impact"; VStr "x"; VStr ""].
Proof.
  apply (proj1 (hash_sees_fields_through_or_empty (H := spelling_hash))).
  - reflexivity.
  - reflexivity.
Defined.

(** ** The font size search *)

Section FontSearch.

Context `{TextMeasure}.
Variables font text : string.
Variable max_size : Z.

(** The width of [text] at a size. *)
Let width_at (size : Z) : Z := fst (getsize (truetype font size) text).

(** The loop never runs out of fuel that covers [font_size - 1]
    iterations: it leaves through its own test, at the largest size not
    above [font_size] at which the text fits or which is 1. *)
Lemma _maximize_loop_fuel (fuel : nat) :
  forall font_size : Z,
    font_size - 1 <= Z.of_nat fuel ->
    let r := _maximize_loop fuel font text max_size font_size
               (getsize (truetype font font_size) text) in
    r <= font_size
    /\ (1 <= font_size -> 1 <= r)
    /\ (font_size <= 1 -> r = font_size)
    /\ (width_at r <= max_size \/ r <= 1)
    /\ (forall s, r < s <= font_size -> max_size < width_at s).
Proof.
  induction fuel as [|fuel IH]; intros font_size Hfuel.
  - cbn [_maximize_loop]. repeat split; try lia.
  - cbn [_maximize_loop].
    destruct (max_size <? fst (getsize (truetype font font_size) text))%Z
      eqn:Ewide; cbn [andb].
    + destruct (1 <? font_size)%Z eqn:Ebig.
      * apply Z.ltb_lt in Ewide, Ebig.
        destruct (IH (font_size - 1)) as (H1 & H2 & H3 & H4 & H5); [lia|].
        cbn zeta in *. repeat split; try lia; try exact H4.
        intros s Hs. destruct (Z.eq_dec s font_size) as [-> | Hne].
        -- exact Ewide.
        -- apply H5. lia.
      * apply Z.ltb_ge in Ebig. repeat split; try lia.
    + apply Z.ltb_ge in Ewide. repeat split; try lia. left. exact Ewide.
Qed.

(** [_maximize_font_size] returns the largest size, not above [max_size],
    at which the text is no wider than [max_size], or 1 when there is
    none; a [max_size] below 1 comes back as it is. *)
Lemma _maximize_font_size_spec :
  let r := _maximize_font_size font text max_size in
  r <= max_size
  /\ (1 <= max_size -> 1 <= r)
  /\ (max_size <= 1 -> r = max_size)
  /\ (width_at r <= max_size \/ r <= 1)
  /\ (forall s, r < s <= max_size -> max_size < width_at s).
Proof.
  unfold _maximize_font_size. apply _maximize_loop_fuel. lia.
Qed.

(** More fuel than that changes nothing. *)
Lemma _maximize_loop_more_fuel (fuel extra : nat) :
  forall font_size text_size,
    font_size - 1 <= Z.of_nat fuel ->
    _maximize_loop (fuel + extra) font text max_size font_size text_size
    = _maximize_loop fuel font text max_size font_size text_size.
Proof.
  induction fuel as [|fuel IH]; intros font_size text_size Hfuel.
  - destruct extra as [|extra]; [reflexivity|].
    cbn [Nat.add _maximize_loop].
    replace (1 <? font_size)%Z with false
      by (symmetry; apply Z.ltb_ge; lia).
    now rewrite andb_false_r.
  - cbn [Nat.add _maximize_loop].
    destruct ((max_size <? fst text_size)%Z && (1 <? font_size)%Z);
      [|reflexivity].
    apply IH. lia.
Qed.

Lemma _maximize_font_size_at_least_one :
  1 <= _maximize_font_size font text max_size <-> 1 <= max_size.
Proof.
  destruct _maximize_font_size_spec as (H1 & H2 & H3 & _). cbn zeta in *.
  lia.
Qed.

End FontSearch.

(** A wider limit never lowers the size found for one line. *)
Lemma _maximize_font_size_monotone `{TextMeasure} (font text : string)
    (w1 w2 : Z) :
  w1 <= w2 ->
  _maximize_font_size font text w1 <= _maximize_font_size font text w2.
Proof.
  intros Hw.
  destruct (_maximize_font_size_spec font text w1) as (A1 & A2 & A3 & A4 & A5).
  destruct (_maximize_font_size_spec font text w2) as (B1 & B2 & B3 & B4 & B5).
  cbn zeta in *.
  set (r1 := _maximize_font_size font text w1) in *.
  set (r2 := _maximize_font_size font text w2) in *.
  destruct (Z_le_gt_dec r1 r2) as [Hle | Hgt]; [exact Hle|].
  exfalso. assert (Hwide : w2 < fst (getsize (truetype font r1) text))
    by (apply B5; lia).
  destruct A4 as [Hfit | Hone]; lia.
Qed.

(** The minimum the [for phrase in phrases] loop folds. *)
Lemma fold_min_lower_bound {A : Type} (g : A -> Z) (bound : Z)
    (phrases : list A) :
  forall start : Z,
    bound <= fold_left (fun size p => Z.min (g p) size) phrases start
    <-> bound <= start /\ Forall (fun p => bound <= g p) phrases.
Proof.
  induction phrases as [|p phrases IH]; intros start; cbn [fold_left].
  - split; [intros; split; [assumption | constructor] | tauto].
  - rewrite IH. split.
    + intros [Hmin Hall]. split; [lia|]. constructor; [lia | exact Hall].
    + intros [Hstart Hall]. inversion Hall; subst. split; [lia | assumption].
Qed.

Lemma fold_min_monotone {A : Type} (g1 g2 : A -> Z) (phrases : list A) :
  (forall p, g1 p <= g2 p) ->
  forall start1 start2 : Z,
    start1 <= start2 ->
    fold_left (fun size p => Z.min (g1 p) size) phrases start1
    <= fold_left (fun size p => Z.min (g2 p) size) phrases start2.
Proof.
  intros Hg. induction phrases as [|p phrases IH]; intros s1 s2 Hs;
    cbn [fold_left]; [exact Hs|].
  apply IH. specialize (Hg p). lia.
Qed.

Lemma _optimize_font_size_unfold `{TextMeasure} (font text : string)
    (max_font_size min_font_size max_text_len : Z) :
  _optimize_font_size font text max_font_size min_font_size max_text_len
  = let phrases := layout_lines font text min_font_size max_text_len in
    (fold_left
       (fun size phrase =>
          Z.min (_maximize_font_size font phrase max_text_len) size)
       phrases (max_font_size / Z.of_nat (length phrases)),
     String.concat newline phrases).
Proof. reflexivity. Qed.

Lemma layout_lines_nonempty `{TextMeasure} (font text : string)
    (min_font_size max_text_len : Z) :
  layout_lines font text min_font_size max_text_len <> [].
Proof.
  unfold layout_lines. destruct (_ <? _)%Z; [|discriminate].
  unfold _split. destruct (_ && _); [|discriminate].
  rewrite _split_loop_find. destruct (List.find _ _); discriminate.
Qed.

(** The size [_optimize_font_size] returns is not raised to 1: with a
    maximum of 0 it returns 0, every font being opened at a size of 1 or
    more on the way. *)
Lemma _optimize_font_size_returns_zero :
  fst (_optimize_font_size (H := fixed_pitch) "impact.ttf" "a" 0 1 10) = 0
  /\ ~ 1 <= fst (_optimize_font_size (H := fixed_pitch)
                   "impact.ttf" "a" 0 1 10).
Proof. split; [reflexivity | vm_compute; intros Hle; now apply Hle]. Qed.

(** Two lines halve the maximum, so a maximum of 1 gives 0 as well. *)
Example _optimize_font_size_two_lines_zero :
  _optimize_font_size (H := fixed_pitch) "impact.ttf" "aaa bbb" 1 5 10
  = (0, ("aaa" ++ newline ++ "bbb")%string).
Proof. reflexivity. Qed.

(** C3 (amended). The size [_optimize_font_size] returns is at least 1
    exactly when the maximum font size divided by the number of lines is at
    least 1 and the width limit is at least 1: the search of
    [_maximize_font_size] stops at 1, and nothing else raises the size. *)
Theorem _optimize_font_size_at_least_one `{TextMeasure} (font text : string)
    (max_font_size min_font_size max_text_len : Z) :
  1 <= max_font_size
       / Z.of_nat (length (layout_lines font text min_font_size max_text_len))
  -> 1 <= max_text_len
  -> 1 <= fst (_optimize_font_size font text max_font_size min_font_size
                 max_text_len).
Proof.
  intros Hmax Hlen. rewrite _optimize_font_size_unfold. cbn [fst].
  apply fold_min_lower_bound. split; [exact Hmax|].
  apply List.Forall_forall. intros phrase _.
  now apply _maximize_font_size_at_least_one.
Qed.

Lemma _optimize_font_size_at_least_one_witness :
  1 <= fst (_optimize_font_size (H := fixed_pitch)
              "impact.ttf" "TOP TEXT" 90 37 580).
Proof.
  apply _optimize_font_size_at_least_one.
  - vm_compute. discriminate.
  - lia.
Defined.

(** The two conditions are needed: below either, the size is below 1. *)
Lemma _optimize_font_size_below_one `{TextMeasure} (font text : string)
    (max_font_size min_font_size max_text_len : Z) :
  1 <= fst (_optimize_font_size font text max_font_size min_font_size
              max_text_len)
  -> 1 <= max_font_size
          / Z.of_nat
              (length (layout_lines font text min_font_size max_text_len))
     /\ 1 <= max_text_len.
Proof.
  rewrite _optimize_font_size_unfold. cbn [fst].
  intros Hone. apply fold_min_lower_bound in Hone as [Hmax Hall].
  split; [exact Hmax|].
  pose proof (layout_lines_nonempty font text min_font_size max_text_len).
  destruct (layout_lines font text min_font_size max_text_len)
    as [|phrase phrases]; [congruence|].
  inversion Hall; subst. now apply (_maximize_font_size_at_least_one font phrase).
Qed.

(** ** Empty text *)

Lemma _split_empty : _split "" = [""].
Proof. reflexivity. Qed.

(** For empty text the width limit caps the size: a maximum font size of
    100 under a limit of 50 gives 50. *)
Lemma _optimize_font_size_empty_capped :
  fst (_optimize_font_size (H := fixed_pitch) "impact.ttf" "" 100 8 50) = 50
  /\ fst (_optimize_font_size (H := fixed_pitch) "impact.ttf" "" 100 8 50)
     <> 100 / 1.
Proof. split; [reflexivity | vm_compute; discriminate]. Qed.

(** C7 (amended). For empty text that is no wider than the width limit
    when measured at a size equal to the limit, the search of
    [_maximize_font_size] makes no step and [_optimize_font_size] returns
    the smaller of the maximum font size and the width limit, with the text
    unchanged; that is the maximum font size when it does not exceed the
    limit. *)
Theorem _optimize_font_size_empty_text `{TextMeasure} (font : string)
    (max_font_size min_font_size max_text_len : Z) :
  fst (getsize (truetype font max_text_len) "") <= max_text_len ->
  _maximize_font_size font "" max_text_len = max_text_len
  /\ _optimize_font_size font "" max_font_size min_font_size max_text_len
     = (Z.min max_text_len (max_font_size / 1), "")
  /\ (max_font_size <= max_text_len ->
      fst (_optimize_font_size font "" max_font_size min_font_size
             max_text_len) = max_font_size).
Proof.
  intros Hfit.
  assert (Hsearch : _maximize_font_size font "" max_text_len = max_text_len).
  { destruct (_maximize_font_size_spec font "" max_text_len)
      as (H1 & _ & _ & _ & H5). cbn zeta in *.
    destruct (Z.eq_dec (_maximize_font_size font "" max_text_len) max_text_len)
      as [E | E]; [exact E|].
    specialize (H5 max_text_len). lia. }
  assert (Hopt : _optimize_font_size font "" max_font_size min_font_size
                   max_text_len
                 = (Z.min max_text_len (max_font_size / 1), "")).
  { rewrite _optimize_font_size_unfold. unfold layout_lines.
    rewrite _split_empty.
    destruct (max_text_len <? _)%Z; cbn [length fold_left String.concat];
      now rewrite Hsearch. }
  split; [exact Hsearch|]. split; [exact Hopt|].
  intros Hle. rewrite Hopt, Z.div_1_r. cbn [fst]. lia.
Qed.

Lemma _optimize_font_size_empty_text_witness :
  _maximize_font_size (H := fixed_pitch) "impact.ttf" "" 580 = 580
  /\ _optimize_font_size (H := fixed_pitch) "impact.ttf" "" 90 37 580
     = (Z.min 580 (90 / 1), "")
  /\ (90 <= 580 ->
      fst (_optimize_font_size (H := fixed_pitch) "impact.ttf" "" 90 37 580)
      = 90).
Proof.
  apply _optimize_font_size_empty_text. vm_compute. discriminate.
Defined.

(** ** Widening the limit *)

Lemma fixed_pitch_width_monotone : width_monotone (H := fixed_pitch).
Proof.
  intros font text s1 s2 Hs. cbn. apply Z.mul_le_mono_nonneg_r; lia.
Qed.

(** A text that needs two lines under a limit of 89 and fits one line
    under 90 gets size 12 for the two lines and size 10 for the one. *)
Lemma _optimize_font_size_wider_smaller :
  width_monotone (H := fixed_pitch)
  /\ 89 <= 90
  /\ _optimize_font_size (H := fixed_pitch) "impact.ttf" "aaaa bbbb" 24 10 89
     = (12, ("aaaa" ++ newline ++ "bbbb")%string)
  /\ _optimize_font_size (H := fixed_pitch) "impact.ttf" "aaaa bbbb" 24 10 90
     = (10, "aaaa bbbb")
  /\ ~ fst (_optimize_font_size (H := fixed_pitch)
              "impact.ttf" "aaaa bbbb" 24 10 89)
       <= fst (_optimize_font_size (H := fixed_pitch)
                 "impact.ttf" "aaaa bbbb" 24 10 90).
Proof.
  split; [exact fixed_pitch_width_monotone|]. split; [lia|].
  split; [reflexivity|]. split; [reflexivity|].
  vm_compute. intros Hle. now apply Hle.
Qed.

(** C8 (amended). For fixed text, font, maximum and minimum font size,
    widening the width limit never lowers the returned size as long as the
    text is laid out in the same lines under both limits (it fits one line
    under both, or needs splitting under both, or cannot be split). *)
Theorem _optimize_font_size_monotone_same_lines `{TextMeasure}
    (font text : string) (max_font_size min_font_size w1 w2 : Z) :
  w1 <= w2 ->
  layout_lines font text min_font_size w1
  = layout_lines font text min_font_size w2 ->
  fst (_optimize_font_size font text max_font_size min_font_size w1)
  <= fst (_optimize_font_size font text max_font_size min_font_size w2).
Proof.
  intros Hw Hlines. rewrite !_optimize_font_size_unfold. cbn zeta. cbn [fst].
  rewrite Hlines. apply fold_min_monotone; [|lia].
  intros phrase. now apply _maximize_font_size_monotone.
Qed.

Lemma _optimize_font_size_monotone_same_lines_witness :
  fst (_optimize_font_size (H := fixed_pitch) "impact.ttf" "aaaa bbbb"
         24 10 60)
  <= fst (_optimize_font_size (H := fixed_pitch) "impact.ttf" "aaaa bbbb"
            24 10 89).
Proof.
  apply _optimize_font_size_monotone_same_lines.
  - lia.
  - reflexivity.
Defined.

(** The same lines result when the text fits one line under the narrower
    limit, when it does not under the wider, and when it has no interior
    space. *)
Lemma layout_lines_same `{TextMeasure} (font text : string)
    (min_font_size w1 w2 : Z) :
  w1 <= w2 ->
  fst (getsize (truetype font min_font_size) text) <= w1
  \/ w2 < fst (getsize (truetype font min_font_size) text)
  \/ _split text = [text] ->
  layout_lines font text min_font_size w1
  = layout_lines font text min_font_size w2.
Proof.
  intros Hw Hcase. unfold layout_lines.
  destruct (w1 <? _)%Z eqn:E1; destruct (w2 <? _)%Z eqn:E2; try reflexivity;
    [apply Z.ltb_lt in E1; apply Z.ltb_ge in E2
    |apply Z.ltb_ge in E1; apply Z.ltb_lt in E2];
    destruct Hcase as [Hc | [Hc | Hc]]; congruence || lia.
Qed.

(** ** The compositor *)

Lemma bind_ok {A B : Type} (r : result A) (k : A -> result B) (b : B) :
  (x <- r ;; k x) = Ok b -> exists a, r = Ok a /\ k a = Ok b.
Proof. destruct r as [a|e]; cbn; [eauto | discriminate]. Qed.

(** Takes the first [bind] of hypothesis [H] apart. *)
Ltac bind_inv H :=
  let a := fresh "v" in
  let E := fresh "E" in
  apply bind_ok in H as (a & E & H).

(** A property the body of a loop keeps holds after the loop. *)
Lemma for_each_invariant {S A : Type} (P : S -> Prop)
    (body : S -> A -> result S) (items : list A) :
  (forall s a s', P s -> body s a = Ok s' -> P s') ->
  forall state state',
    P state -> for_each items state body = Ok state' -> P state'.
Proof.
  intros Hbody. induction items as [|item items IH]; intros state state' HP;
    cbn [for_each].
  - intros [= <-]. exact HP.
  - intros Hrun. bind_inv Hrun. eapply IH; [|exact Hrun]. eauto.
Qed.

(** Drawing changes pixels only. *)
Lemma _draw_outlined_text_keeps (draw_image image : ImageFile.t)
    (text_position : num * num) (text : string) (font : FreeTypeFont)
    (font_size : Z) :
  _draw_outlined_text draw_image text_position text font font_size = Ok image ->
  ImageFile.format image = ImageFile.format draw_image
  /\ ImageFile.size image = ImageFile.size draw_image
  /\ ImageFile.mode image = ImageFile.mode draw_image.
Proof.
  unfold _draw_outlined_text. intros Hrun. bind_inv Hrun.
  injection Hrun as <-. cbn.
  set (P := fun s : ImageFile.t =>
              ImageFile.format s = ImageFile.format draw_image
              /\ ImageFile.size s = ImageFile.size draw_image
              /\ ImageFile.mode s = ImageFile.mode draw_image).
  change (P v). revert E. apply (for_each_invariant P); [|now repeat split].
  intros s x s' Hs Hinner. revert Hinner.
  apply (for_each_invariant P); [|exact Hs].
  intros s1 y s2 Hs1 Hstep. bind_inv Hstep. bind_inv Hstep.
  injection Hstep as <-. exact Hs1.
Qed.

(** The padded image is tagged PNG and has the requested size. *)
Lemma _add_blurred_background_result (foreground background image : ImageFile.t)
    (width height : Z) :
  _add_blurred_background foreground background width height = Ok image ->
  ImageFile.format image = Some "PNG"
  /\ ImageFile.size image = (width, height).
Proof.
  unfold _add_blurred_background.
  destruct (ImageFile.size foreground) as [base_width base_height].
  intros Hrun. bind_inv Hrun. bind_inv Hrun.
  unfold ImageFile.resize in E0.
  destruct (_ || _); [discriminate|]. injection E0 as <-.
  cbn in Hrun. injection Hrun as <-. cbn. now split.
Qed.

(** What [_generate] returns: an image tagged PNG; with both target
    dimensions given, an image of the target size. *)
Lemma _generate_result `{Files} `{TextMeasure}
    (top bottom font_path background : string) (width height : option Z)
    (watermark watermark_font_path : string) (image : ImageFile.t) :
  _generate top bottom font_path background width height
    watermark watermark_font_path = Ok image ->
  ImageFile.format image = Some "PNG"
  /\ (given width && given height = true ->
      ImageFile.size image = (default 0 width, default 0 height)).
Proof.
  unfold _generate. intros Hrun.
  bind_inv Hrun. bind_inv Hrun. bind_inv Hrun. bind_inv Hrun.
  bind_inv Hrun. bind_inv Hrun. bind_inv Hrun. bind_inv Hrun.
  destruct (_optimize_font_size font_path top _ _ _)
    as [top_font_size top_lines].
  destruct (_optimize_font_size font_path bottom _ _ _)
    as [bottom_font_size bottom_lines].
  repeat bind_inv Hrun. injection Hrun as <-.
  apply _draw_outlined_text_keeps in E15 as (F15 & _ & _).
  apply _draw_outlined_text_keeps in E16 as (F16 & _ & _).
  assert (Hmark : ImageFile.format v18 = ImageFile.format v17
                  /\ ImageFile.size v18 = ImageFile.size v17).
  { destruct (negb (watermark =? "")%string).
    - apply _draw_outlined_text_keeps in E18 as (F18 & S18 & _). now split.
    - injection E18 as <-. now split. }
  destruct Hmark as [-> ->].
  destruct (given width && given height).
  - apply _add_blurred_background_result in E17 as [F17 S17]. now split.
  - injection E17 as <-. split; [|discriminate].
    rewrite F16, F15. reflexivity.
Qed.

(** An opaque JPEG background gives an image tagged PNG, not JPEG. *)
Lemma _generate_jpeg_background_tagged_png :
  exists background image : ImageFile.t,
    stored (Files := sample_files) !! "photo.jpg" = Some background
    /\ ImageFile.mode background = "RGB"
    /\ ImageFile.format background = Some "JPEG"
    /\ _generate (H := sample_files) (H0 := fixed_pitch)
         "TOP TEXT" "BOTTOM TEXT" "impact.ttf" "photo.jpg" None None
         "" "impact.ttf" = Ok image
    /\ ImageFile.format image = Some "PNG"
    /\ ImageFile.format image <> Some "JPEG".
Proof.
  eexists. eexists. split; [vm_compute; reflexivity|].
  split; [reflexivity|]. split; [reflexivity|].
  split; [vm_compute; reflexivity|].
  split; [reflexivity | discriminate].
Qed.

(** C4 (amended). The format tag of the image [_generate] returns is PNG
    whatever the background: the tag the background gets when it is
    converted (JPEG for a JPEG source, PNG for any other) stays on the
    background object and does not reach the result. *)
Theorem _generate_format_is_png `{Files} `{TextMeasure}
    (top bottom font_path background : string) (width height : option Z)
    (watermark watermark_font_path : string) (image : ImageFile.t) :
  _generate top bottom font_path background width height
    watermark watermark_font_path = Ok image ->
  ImageFile.format image = Some "PNG".
Proof. intros Hrun. now apply _generate_result in Hrun as [Hformat _]. Qed.

Lemma _generate_format_is_png_witness :
  exists image : ImageFile.t,
    _generate (H := sample_files) (H0 := fixed_pitch)
      "TOP TEXT" "BOTTOM TEXT" "impact.ttf" "anim.gif" None (Some 200)
      "memegen.link" "impact.ttf" = Ok image
    /\ ImageFile.format image = Some "PNG".
Proof.
  eexists. split.
  - vm_compute. reflexivity.
  - apply (_generate_format_is_png (H := sample_files) (H0 := fixed_pitch)
             "TOP TEXT" "BOTTOM TEXT" "impact.ttf" "anim.gif" None (Some 200)
             "memegen.link" "impact.ttf").
    vm_compute. reflexivity.
Defined.

(** C5. With a positive target width and a positive target height, the
    image [_generate] returns has exactly the target width and height,
    whatever the size of the background. *)
Theorem _generate_exact_target_size `{Files} `{TextMeasure}
    (top bottom font_path background : string) (width height : Z)
    (watermark watermark_font_path : string) (image : ImageFile.t) :
  0 < width -> 0 < height ->
  _generate top bottom font_path background (Some width) (Some height)
    watermark watermark_font_path = Ok image ->
  ImageFile.size image = (width, height).
Proof.
  intros Hw Hh Hrun. apply _generate_result in Hrun as [_ Hsize].
  apply Hsize. cbn [given]. apply andb_true_iff.
  split; apply negb_true_iff, Z.eqb_neq; lia.
Qed.

Lemma _generate_exact_target_size_witness :
  exists image : ImageFile.t,
    _generate (H := sample_files) (H0 := fixed_pitch)
      "TOP TEXT" "BOTTOM TEXT" "impact.ttf" "photo.jpg" (Some 500) (Some 500)
      "" "impact.ttf" = Ok image
    /\ ImageFile.size image = (500, 500).
Proof.
  eexists. split.
  - vm_compute. reflexivity.
  - apply (_generate_exact_target_size (H := sample_files) (H0 := fixed_pitch)
             "TOP TEXT" "BOTTOM TEXT" "impact.ttf" "photo.jpg" 500 500
             "" "impact.ttf").
    + lia.
    + lia.
    + vm_compute. reflexivity.
Defined.

(** ** Negative targets *)

(** When a negative [int] is not below a [float], the [float] is negative
    or zero, and so is its integer part. *)
Lemma int_of_float_not_positive (a : Z) (x : float) (z : Z) :
  a < 0 -> int_lt_float a x = false -> int_of_float x = Ok z -> z <= 0.
Proof.
  unfold int_lt_float, int_of_float. intros Ha.
  destruct (Prim2SF x) as [sign | sign | | sign m e]; try discriminate.
  - intros _ [= <-]. lia.
  - destruct sign.
    + intros _ [= <-]. destruct (0 <=? e)%Z eqn:Ee.
      * apply Z.leb_le in Ee. pose proof (Z.shiftl_nonneg (Z.pos m) e). lia.
      * pose proof (Z.shiftr_nonneg (Z.pos m) (- e)). lia.
    + intros Hlt _. exfalso. destruct (0 <=? e)%Z eqn:Ee.
      * apply Z.ltb_ge in Hlt. apply Z.leb_le in Ee.
        pose proof (Z.shiftl_nonneg (Z.pos m) e). lia.
      * apply Z.ltb_ge in Hlt. apply Z.leb_gt in Ee.
        rewrite Z.shiftl_mul_pow2 in Hlt by lia.
        assert (0 < 2 ^ (- e)) by (apply Z.pow_pos_nonneg; lia). nia.
Qed.

Lemma resize_rejects (image : ImageFile.t) (new_size : Z * Z)
    (resample : string) :
  fst new_size < 1 \/ snd new_size < 1 ->
  ImageFile.resize image new_size resample = Raise ValueError.
Proof.
  intros Hsmall. unfold ImageFile.resize.
  replace ((fst new_size <? 1)%Z || (snd new_size <? 1)%Z) with true;
    [reflexivity|].
  symmetry. apply orb_true_iff. rewrite !Z.ltb_lt. exact Hsmall.
Qed.

(** A negative target width is not refused by a check of [_generate]: the
    background is opened and the dimensions are computed; the render then
    ends in an exception of that arithmetic or in the [ValueError] of
    [resize]. *)
Lemma _generate_negative_width_raises `{Files} `{TextMeasure}
    (top bottom font_path background : string) (width : Z)
    (height : option Z) (watermark watermark_font_path : string) :
  width < 0 ->
  exists e : exn,
    _generate top bottom font_path background (Some width) height
      watermark watermark_font_path = Raise e.
Proof.
  intros Hneg. unfold _generate.
  destruct (ImageFile_open background) as [opened | e]; cbn [bind];
    [|eauto].
  match goal with
  | |- context [int_truediv ?a ?b] =>
      destruct (int_truediv a b) as [ratio | e]; cbn [bind]; [|eauto]
  end.
  assert (Hgiven : given (Some width) = true)
    by (cbn; apply negb_true_iff, Z.eqb_neq; lia).
  rewrite Hgiven. cbn [andb default].
  match goal with
  | |- exists e, bind ?d ?k = Raise e =>
      assert (Hsmall : forall dims, d = Ok dims -> fst dims < 1 \/ snd dims < 1);
      [| destruct d as [dims | e]; cbn [bind]; [|eauto];
         rewrite resize_rejects by (now apply Hsmall); cbn [bind]; eauto]
  end.
  intros dims. unfold id. destruct (given height).
  - intros Hrun. bind_inv Hrun.
    destruct (int_lt_float width v) eqn:Elt.
    + bind_inv Hrun. bind_inv Hrun. injection Hrun as <-. cbn. lia.
    + bind_inv Hrun. bind_inv Hrun. injection Hrun as <-. cbn. left.
      rewrite E in E0. injection E0 as <-.
      pose proof (int_of_float_not_positive width v v1 Hneg Elt E1). lia.
  - intros Hrun. bind_inv Hrun. bind_inv Hrun. injection Hrun as <-.
    cbn. lia.
Qed.

Example _generate_negative_width :
  _generate (H := sample_files) (H0 := fixed_pitch)
    "TOP TEXT" "BOTTOM TEXT" "impact.ttf" "photo.jpg" (Some (-5)) (Some 10)
    "" "impact.ttf" = Raise ValueError.
Proof. vm_compute. reflexivity. Qed.

(** A positive target can be refused as well: one pixel wide, the resized
    background would be 0 pixels high. *)
Example _generate_thin_target :
  _generate (H := sample_files) (H0 := fixed_pitch)
    "TOP TEXT" "BOTTOM TEXT" "impact.ttf" "photo.jpg" (Some 1) (Some 1000)
    "" "impact.ttf" = Raise ValueError.
Proof. vm_compute. reflexivity. Qed.

(** ** Signs through the float arithmetic *)

Lemma binary_round_aux_signed (sign : bool) (mx ex : Z) (lx : location) :
  sf_signed sign (binary_round_aux prec emax sign mx ex lx).
Proof.
  unfold binary_round_aux.
  destruct (shr_fexp prec emax mx ex lx) as [mrs1 e1].
  destruct (shr_fexp prec emax _ e1 loc_Exact) as [mrs2 e2].
  destruct (shr_m mrs2); cbn; [reflexivity | | exact I].
  destruct (e2 <=? emax - prec)%Z; reflexivity.
Qed.

Lemma binary_round_signed (sign : bool) (mx : positive) (ex : Z) :
  sf_signed sign (binary_round prec emax sign mx ex).
Proof.
  unfold binary_round. destruct (shl_align _ _ _) as [mz ez].
  apply binary_round_aux_signed.
Qed.

Lemma binary_normalize_signed (z : Z) :
  sf_signed (z <? 0)%Z (binary_normalize prec emax z 0 false).
Proof.
  destruct z as [|p|p]; cbn [binary_normalize Z.ltb Z.compare].
  - reflexivity.
  - apply binary_round_signed.
  - apply binary_round_signed.
Qed.

Lemma SFopp_signed (sign : bool) (x : spec_float) :
  sf_signed sign x -> sf_signed (negb sign) (SFopp x).
Proof. destruct x; cbn; congruence. Qed.

Lemma SFldexp_signed (sign : bool) (x : spec_float) (e : Z) :
  sf_signed sign x -> sf_signed sign (SFldexp prec emax x e).
Proof.
  destruct x as [s | s | | s m ex]; cbn [SFldexp]; try tauto.
  cbn [sf_signed]. intros <-. apply binary_round_signed.
Qed.

(** Reading back a float built from a signed description gives the same
    sign. *)
Lemma Prim2SF_SF2Prim_signed (sign : bool) (x : spec_float) :
  sf_signed sign x -> sf_signed sign (Prim2SF (SF2Prim x)).
Proof.
  destruct x as [s | s | | s m e]; cbn [sf_signed].
  - intros <-. destruct s; vm_compute; reflexivity.
  - intros <-. destruct s; vm_compute; reflexivity.
  - intros _. vm_compute. exact I.
  - intros <-. cbn [SF2Prim].
    assert (Hpos : sf_signed false
                     (Prim2SF (Z.ldexp (of_uint63 (Uint63.of_Z (Z.pos m))) e))).
    { rewrite Z_ldexp_spec. apply SFldexp_signed. rewrite of_uint63_spec.
      pose proof (binary_normalize_signed
                    (Uint63.to_Z (Uint63.of_Z (Z.pos m)))) as Hsign.
      replace (Uint63.to_Z (Uint63.of_Z (Z.pos m)) <? 0)%Z with false in Hsign;
        [exact Hsign|].
      symmetry. apply Z.ltb_ge.
      apply (Uint63.to_Z_bounded (Uint63.of_Z (Z.pos m))). }
    destruct s; [|exact Hpos].
    rewrite opp_spec. exact (SFopp_signed false _ Hpos).
Qed.

Lemma float_of_int_signed (z : Z) (x : float) :
  float_of_int z = Ok x -> sf_signed (z <? 0)%Z (Prim2SF x).
Proof.
  unfold float_of_int. destruct (is_infinity _); [discriminate|].
  intros [= <-]. apply Prim2SF_SF2Prim_signed, binary_normalize_signed.
Qed.

Lemma SFmul_signed (a b : bool) (x y : spec_float) :
  sf_signed a x -> sf_signed b y ->
  sf_signed (xorb a b) (SFmul prec emax x y).
Proof.
  destruct x as [sx | sx | | sx mx ex], y as [sy | sy | | sy my ey];
    cbn [sf_signed SFmul]; intros Hx Hy; subst; try reflexivity; try exact I.
  apply binary_round_aux_signed.
Qed.

Lemma SFdiv_signed (a b : bool) (x y : spec_float) :
  sf_signed a x -> sf_signed b y ->
  sf_signed (xorb a b) (SFdiv prec emax x y).
Proof.
  destruct x as [sx | sx | | sx mx ex], y as [sy | sy | | sy my ey];
    cbn [sf_signed SFdiv]; intros Hx Hy; subst; try reflexivity; try exact I.
  destruct (SFdiv_core_binary _ _ _ _ _ _) as [[mz ez] lz].
  apply binary_round_aux_signed.
Qed.

(** A product above zero with a negative factor has a negative second
    factor. *)
Lemma SFmul_positive_negative (x y : spec_float) :
  sf_signed true x -> sf_positive (SFmul prec emax x y) -> sf_signed true y.
Proof.
  intros Hx Hpos.
  destruct y as [sy | sy | | sy my ey]; cbn [sf_signed]; try exact I;
    destruct sy; try reflexivity; exfalso;
    [ pose proof (SFmul_signed true false x (S754_zero false) Hx eq_refl) as Hs
    | pose proof (SFmul_signed true false x (S754_infinity false) Hx eq_refl)
        as Hs
    | pose proof (SFmul_signed true false x (S754_finite false my ey) Hx
                    eq_refl) as Hs ];
    cbn [xorb] in Hs;
    destruct (SFmul prec emax x _) as [s | s | | s m e];
    cbn [sf_signed sf_positive] in Hs, Hpos; subst; exact Hpos.
Qed.

(** An [int] above zero is below a float only if the float is above
    zero. *)
Lemma int_lt_float_positive (a : Z) (x : float) :
  0 < a -> int_lt_float a x = true -> sf_positive (Prim2SF x).
Proof.
  unfold int_lt_float. intros Ha.
  destruct (Prim2SF x) as [s | s | | s m e]; cbn [sf_positive].
  - intros Hlt. apply Z.ltb_lt in Hlt. lia.
  - destruct s; [discriminate | tauto].
  - discriminate.
  - destruct s; [|tauto]. intros Hlt. destruct (0 <=? e)%Z eqn:Ee.
    + apply Z.ltb_lt in Hlt. apply Z.leb_le in Ee.
      rewrite Z.shiftl_mul_pow2 in Hlt by lia.
      assert (0 < 2 ^ e) by (apply Z.pow_pos_nonneg; lia). nia.
    + apply Z.ltb_lt in Hlt. apply Z.leb_gt in Ee.
      rewrite Z.shiftl_mul_pow2 in Hlt by lia.
      assert (0 < 2 ^ (- e)) by (apply Z.pow_pos_nonneg; lia). nia.
Qed.

(** The integer part of a negative float is not above zero. *)
Lemma int_of_float_signed (x : float) (z : Z) :
  sf_signed true (Prim2SF x) -> int_of_float x = Ok z -> z <= 0.
Proof.
  unfold int_of_float.
  destruct (Prim2SF x) as [s | s | | s m e]; cbn [sf_signed];
    try discriminate.
  - intros _ [= <-]. lia.
  - intros -> [= <-]. destruct (0 <=? e)%Z eqn:Ee.
    + apply Z.leb_le in Ee. pose proof (Z.shiftl_nonneg (Z.pos m) e). lia.
    + pose proof (Z.shiftr_nonneg (Z.pos m) (- e)). lia.
Qed.

(** A negative target height is not refused by a check of [_generate]
    either: the background is opened and the dimensions are computed; the
    render then ends in an exception of that arithmetic or in the
    [ValueError] of [resize]. *)
Lemma _generate_negative_height_raises `{Files} `{TextMeasure}
    (top bottom font_path background : string) (width : option Z)
    (height : Z) (watermark watermark_font_path : string) :
  height < 0 ->
  exists e : exn,
    _generate top bottom font_path background width (Some height)
      watermark watermark_font_path = Raise e.
Proof.
  intros Hneg. unfold _generate.
  destruct (ImageFile_open background) as [opened | e]; cbn [bind];
    [|eauto].
  match goal with
  | |- context [int_truediv ?a ?b] =>
      destruct (int_truediv a b) as [ratio | e]; cbn [bind]; [|eauto]
  end.
  assert (Hgiven : given (Some height) = true)
    by (cbn; apply negb_true_iff, Z.eqb_neq; lia).
  rewrite Hgiven. change (default 0 (Some height)) with height.
  match goal with
  | |- exists e, bind ?d ?k = Raise e =>
      assert (Hsmall : forall dims, d = Ok dims -> fst dims < 1 \/ snd dims < 1);
      [| destruct d as [dims | e]; cbn [bind]; [|eauto];
         rewrite resize_rejects by (now apply Hsmall); cbn [bind]; eauto]
  end.
  intros dims. destruct (given width); cbn [andb].
  - intros Hrun. bind_inv Hrun.
    destruct (int_lt_float (default 0 width) v) eqn:Elt.
    + bind_inv Hrun. bind_inv Hrun. injection Hrun as <-. cbn [fst snd].
      destruct (Z_lt_le_dec (default 0 width) 1) as [Hw | Hw]; [now left|].
      right.
      assert (Hratio : sf_signed true (Prim2SF ratio)).
      { unfold int_mul_float in E. bind_inv E. injection E as <-.
        match goal with
        | Hconv : float_of_int height = Ok _ |- _ =>
            apply float_of_int_signed in Hconv;
            replace (height <? 0)%Z with true in Hconv
              by (symmetry; apply Z.ltb_lt; exact Hneg);
            apply int_lt_float_positive in Elt; [|lia];
            rewrite mul_spec in Elt;
            exact (SFmul_positive_negative _ _ Hconv Elt)
        end. }
      match goal with
      | Hdiv : int_div_float _ ratio = Ok ?q,
        Hint : int_of_float ?q = Ok ?z |- _ =>
          assert (Hz : z <= 0); [|lia];
          apply (int_of_float_signed q); [|exact Hint];
          unfold int_div_float in Hdiv; bind_inv Hdiv;
          destruct (is_zero ratio); [discriminate|]; injection Hdiv as <-
      end.
      match goal with
      | Hconv : float_of_int (default 0 width) = Ok _ |- _ =>
          apply float_of_int_signed in Hconv;
          replace (default 0 width <? 0)%Z with false in Hconv
            by (symmetry; apply Z.ltb_ge; lia);
          rewrite div_spec;
          exact (SFdiv_signed false true _ _ Hconv Hratio)
      end.
    + bind_inv Hrun. bind_inv Hrun. injection Hrun as <-. cbn. lia.
  - intros Hrun. bind_inv Hrun. bind_inv Hrun. injection Hrun as <-.
    cbn. lia.
Qed.

(** The target is not checked up front: a target of 0 by 0 renders; a
    negative target on a background that cannot be opened fails on opening
    it, and on one that can, in [resize]. *)
Lemma _generate_target_not_validated :
  (exists image : ImageFile.t,
      _generate (H := sample_files) (H0 := fixed_pitch)
        "TOP TEXT" "BOTTOM TEXT" "impact.ttf" "photo.jpg" (Some 0) (Some 0)
        "" "impact.ttf" = Ok image
      /\ ImageFile.size image = (600, 450))
  /\ _generate (H := sample_files) (H0 := fixed_pitch)
       "TOP TEXT" "BOTTOM TEXT" "impact.ttf" "missing.jpg"
       (Some (-1)) (Some (-1)) "" "impact.ttf" = Raise IOError
  /\ _generate (H := sample_files) (H0 := fixed_pitch)
       "TOP TEXT" "BOTTOM TEXT" "impact.ttf" "photo.jpg"
       (Some 500) (Some (-5)) "" "impact.ttf" = Raise ValueError.
Proof.
  split; [|split].
  - eexists. split; [vm_compute; reflexivity | reflexivity].
  - vm_compute. reflexivity.
  - vm_compute. reflexivity.
Qed.

(** C9 (amended). A render request with a negative target width or a
    negative target height ends in an exception. No check of the target
    precedes the pixel work: the background is opened first, so a missing
    background raises [IOError] whatever the target, and a negative target
    is refused afterwards, by the dimension arithmetic or by [resize]. A
    target width or height of 0 is not refused: it counts as not given, and
    the render runs as without it. *)
Theorem _generate_negative_target_raises `{Files} `{TextMeasure}
    (top bottom font_path background : string) (width height : option Z)
    (watermark watermark_font_path : string) :
  ((exists w, width = Some w /\ w < 0) \/ (exists h, height = Some h /\ h < 0)
   -> exists e : exn,
        _generate top bottom font_path background width height
          watermark watermark_font_path = Raise e)
  /\ (stored !! background = None ->
      _generate top bottom font_path background width height
        watermark watermark_font_path = Raise IOError)
  /\ _generate top bottom font_path background (Some 0) height
       watermark watermark_font_path
     = _generate top bottom font_path background None height
         watermark watermark_font_path
  /\ _generate top bottom font_path background width (Some 0)
       watermark watermark_font_path
     = _generate top bottom font_path background width None
         watermark watermark_font_path.
Proof.
  split; [|split; [|split]].
  - intros [(w & -> & Hw) | (h & -> & Hh)].
    + now apply _generate_negative_width_raises.
    + now apply _generate_negative_height_raises.
  - intros Hmissing. unfold _generate, ImageFile_open. rewrite Hmissing.
    reflexivity.
  - reflexivity.
  - reflexivity.
Qed.

Lemma _generate_negative_target_raises_witness :
  exists e : exn,
    _generate (H := sample_files) (H0 := fixed_pitch)
      "TOP TEXT" "BOTTOM TEXT" "impact.ttf" "photo.jpg"
      (Some 500) (Some (-5)) "memegen.link" "impact.ttf" = Raise e.
Proof.
  apply (proj1 (_generate_negative_target_raises
                  (H := sample_files) (H0 := fixed_pitch)
                  "TOP TEXT" "BOTTOM TEXT" "impact.ttf" "photo.jpg"
                  (Some 500) (Some (-5)) "memegen.link" "impact.ttf")).
  right. exists (-5). split; [reflexivity | lia].
Defined.

(** * Further properties *)

(** ** The splitter on any text *)

(** X1. Whatever the text, [_split] returns one or two phrases, and joining
    them with a single space gives the text back. *)
Theorem _split_rejoins (text : string) :
  (length (_split text) = 1 \/ length (_split text) = 2)%nat
  /\ String.concat " " (_split text) = text.
Proof.
  destruct ((3 <=? Z.of_nat (String.length text))%Z
            && str_contains " " (slice_interior text)) eqn:Eguard.
  - apply guard_interior_space in Eguard.
    destruct (_split_cut text Eguard) as (j & [Hj _] & ->).
    split; [now right|]. destruct Hj as (_ & _ & Hget).
    cbn [String.concat]. symmetry. exact (get_cut j " "%char text Hget).
  - assert (Hsingle : _split text = [text])
      by (unfold _split; now rewrite Eguard).
    rewrite Hsingle. split; [now left | reflexivity].
Qed.

(** ** The search of [_maximize_font_size] *)

(** X2. For a width limit of at least 1, [_maximize_font_size] returns
    the largest size between 1 and [max_size] at which the text is no wider
    than [max_size], or 1 when there is none: the size returned lies
    between 1 and [max_size], it fits or is 1, and every size between it
    and [max_size] is too wide. *)
Theorem _maximize_font_size_largest_fit `{TextMeasure} (font text : string)
    (max_size : Z) :
  1 <= max_size ->
  let fits size := fst (getsize (truetype font size) text) <= max_size in
  let result := _maximize_font_size font text max_size in
  1 <= result <= max_size
  /\ (fits result \/ result = 1)
  /\ (forall size, result < size <= max_size -> ~ fits size).
Proof.
  intros Hmax fits result.
  destruct (_maximize_font_size_spec font text max_size)
    as (H1 & H2 & _ & H4 & H5).
  cbn zeta in *. fold result in H1, H2, H4, H5.
  split; [lia|]. split.
  - destruct H4 as [Hfit | Hone]; [now left | right; lia].
  - intros size Hsize Hfit. unfold fits in Hfit.
    specialize (H5 size Hsize). lia.
Qed.

Lemma _maximize_font_size_largest_fit_witness :
  let H := fixed_pitch in
  let fits size :=
    fst (getsize (truetype "impact.ttf" size) "BOTTOM TEXT") <= 580 in
  let result := _maximize_font_size "impact.ttf" "BOTTOM TEXT" 580 in
  1 <= result <= 580
  /\ (fits result \/ result = 1)
  /\ (forall size, result < size <= 580 -> ~ fits size).
Proof.
  intros H.
  apply (_maximize_font_size_largest_fit "impact.ttf" "BOTTOM TEXT" 580).
  lia.
Defined.

Example _maximize_font_size_bottom_text :
  _maximize_font_size (H := fixed_pitch) "impact.ttf" "BOTTOM TEXT" 580 = 52.
Proof. reflexivity. Qed.

(** X3. Raising the width limit never lowers the size
    [_maximize_font_size] finds, whatever the font measures. *)
Theorem _maximize_font_size_grows_with_limit `{TextMeasure}
    (font text : string) (w1 w2 : Z) :
  w1 <= w2 ->
  _maximize_font_size font text w1 <= _maximize_font_size font text w2.
Proof.
  intros Hw.
  destruct (_maximize_font_size_spec font text w1) as (A1 & _ & A3 & A4 & _).
  destruct (_maximize_font_size_spec font text w2) as (_ & B2 & B3 & _ & B5).
  cbn zeta in *.
  destruct (Z_le_gt_dec (_maximize_font_size font text w1)
              (_maximize_font_size font text w2)) as [Hle | Hgt];
    [exact Hle|].
  exfalso. specialize (B5 (_maximize_font_size font text w1)).
  destruct A4 as [Hfit | Hone]; lia.
Qed.

Lemma _maximize_font_size_grows_with_limit_witness :
  _maximize_font_size (H := fixed_pitch) "impact.ttf" "BOTTOM TEXT" 380
  <= _maximize_font_size (H := fixed_pitch) "impact.ttf" "BOTTOM TEXT" 580.
Proof. apply _maximize_font_size_grows_with_limit. lia. Defined.

(** ** What [_optimize_font_size] returns *)

Lemma fold_min_upper_bound {A : Type} (g : A -> Z) (phrases : list A) :
  forall start : Z,
    fold_left (fun size p => Z.min (g p) size) phrases start <= start
    /\ Forall
         (fun p => fold_left (fun size p => Z.min (g p) size) phrases start
                   <= g p)
         phrases.
Proof.
  induction phrases as [|p phrases IH]; intros start; cbn [fold_left].
  - split; [lia | constructor].
  - destruct (IH (Z.min (g p) start)) as [Hstart Hall]. split; [lia|].
    constructor; [lia | exact Hall].
Qed.

(** X4. The size [_optimize_font_size] returns exceeds neither the width
    limit nor the maximum font size divided by the number of lines; with a
    maximum that is not negative it does not exceed the maximum. *)
Theorem _optimize_font_size_upper_bounds `{TextMeasure} (font text : string)
    (max_font_size min_font_size max_text_len : Z) :
  let size :=
    fst (_optimize_font_size font text max_font_size min_font_size
           max_text_len) in
  let lines := layout_lines font text min_font_size max_text_len in
  size <= max_text_len
  /\ size <= max_font_size / Z.of_nat (length lines)
  /\ (0 <= max_font_size -> size <= max_font_size).
Proof.
  cbn zeta. rewrite _optimize_font_size_unfold. cbn zeta. cbn [fst].
  pose proof (layout_lines_nonempty font text min_font_size max_text_len)
    as Hne.
  set (lines := layout_lines font text min_font_size max_text_len) in *.
  destruct (fold_min_upper_bound
              (fun phrase => _maximize_font_size font phrase max_text_len)
              lines (max_font_size / Z.of_nat (length lines)))
    as [Hstart Hall].
  split; [|split].
  - destruct lines as [|phrase rest]; [congruence|].
    inversion Hall as [|? ? Hphrase _]; subst.
    destruct (_maximize_font_size_spec font phrase max_text_len) as [Hle _].
    cbn zeta in Hle. lia.
  - exact Hstart.
  - intros Hmax.
    assert (Hcount : 1 <= Z.of_nat (length lines))
      by (destruct lines; [congruence | cbn [length]; lia]).
    assert (max_font_size / Z.of_nat (length lines) <= max_font_size)
      by (apply Z.div_le_upper_bound; nia).
    lia.
Qed.

(** X5. With a font whose measured width does not shrink as the size
    grows, every line of the layout is no wider than the width limit at the
    size [_optimize_font_size] returns, unless that size is 1 or less (the
    text is then left to overflow). *)
Theorem _optimize_font_size_lines_fit `{TextMeasure} (font text : string)
    (max_font_size min_font_size max_text_len : Z) (line : string) :
  width_monotone ->
  In line (layout_lines font text min_font_size max_text_len) ->
  let size :=
    fst (_optimize_font_size font text max_font_size min_font_size
           max_text_len) in
  fst (getsize (truetype font size) line) <= max_text_len \/ size <= 1.
Proof.
  intros Hmono Hin. cbn zeta. rewrite _optimize_font_size_unfold.
  cbn zeta. cbn [fst].
  set (lines := layout_lines font text min_font_size max_text_len) in *.
  destruct (fold_min_upper_bound
              (fun phrase => _maximize_font_size font phrase max_text_len)
              lines (max_font_size / Z.of_nat (length lines)))
    as [_ Hall].
  rewrite List.Forall_forall in Hall. specialize (Hall line Hin).
  cbn beta in Hall.
  destruct (_maximize_font_size_spec font line max_text_len)
    as (_ & _ & _ & [Hfit | Hone] & _); cbn zeta in *.
  - left. etransitivity; [apply Hmono, Hall | exact Hfit].
  - right. lia.
Qed.

Lemma _optimize_font_size_lines_fit_witness :
  let H := fixed_pitch in
  let size :=
    fst (_optimize_font_size "impact.ttf" "aaaa bbbb" 24 10 89) in
  fst (getsize (truetype "impact.ttf" size) "bbbb") <= 89 \/ size <= 1.
Proof.
  intros H.
  apply (_optimize_font_size_lines_fit "impact.ttf" "aaaa bbbb" 24 10 89 "bbbb").
  - exact fixed_pitch_width_monotone.
  - vm_compute. right. left. reflexivity.
Defined.

(** X6. A text that fits the width limit at the minimum single-line size
    is kept on one line, and the size returned is at least that minimum,
    provided the minimum exceeds neither the maximum font size nor the
    width limit. *)
Theorem _optimize_font_size_single_line `{TextMeasure} (font text : string)
    (max_font_size min_font_size max_text_len : Z) :
  fst (getsize (truetype font min_font_size) text) <= max_text_len ->
  min_font_size <= max_font_size ->
  min_font_size <= max_text_len ->
  snd (_optimize_font_size font text max_font_size min_font_size max_text_len)
  = text
  /\ min_font_size
     <= fst (_optimize_font_size font text max_font_size min_font_size
               max_text_len).
Proof.
  intros Hfit Hmax Hlen. rewrite _optimize_font_size_unfold.
  unfold layout_lines.
  replace (max_text_len <? fst (getsize (truetype font min_font_size) text))%Z
    with false by (symmetry; apply Z.ltb_ge; exact Hfit).
  cbn zeta. cbn [snd fst length fold_left String.concat].
  split; [reflexivity|]. rewrite Z.div_1_r.
  destruct (_maximize_font_size_spec font text max_text_len)
    as (_ & _ & _ & _ & Hwide). cbn zeta in Hwide.
  destruct (Z_le_gt_dec min_font_size
              (_maximize_font_size font text max_text_len)) as [Hle | Hgt];
    [lia|].
  specialize (Hwide min_font_size). lia.
Qed.

Lemma _optimize_font_size_single_line_witness :
  snd (_optimize_font_size (H := fixed_pitch)
         "impact.ttf" "TOP TEXT" 90 37 580) = "TOP TEXT"
  /\ 37 <= fst (_optimize_font_size (H := fixed_pitch)
                  "impact.ttf" "TOP TEXT" 90 37 580).
Proof.
  apply _optimize_font_size_single_line.
  - vm_compute. discriminate.
  - lia.
  - lia.
Defined.

Lemma length_append (a b : string) :
  String.length (a ++ b) = (String.length a + String.length b)%nat.
Proof.
  induction a as [|c a IH]; [reflexivity|].
  change (String c a ++ b)%string with (String c (a ++ b)%string).
  cbn [String.length]. now rewrite IH.
Qed.

(** X7. The text [_optimize_font_size] returns is the text it was given,
    or that text with one space replaced by a line break; in either case
    it has the length of the original. An over-wide text without an
    interior space comes back unchanged. *)
Theorem _optimize_font_size_text `{TextMeasure} (font text : string)
    (max_font_size min_font_size max_text_len : Z) :
  let laid_out :=
    snd (_optimize_font_size font text max_font_size min_font_size
           max_text_len) in
  (laid_out = text
   \/ exists a b : string,
        text = (a ++ " " ++ b)%string
        /\ laid_out = (a ++ newline ++ b)%string)
  /\ String.length laid_out = String.length text
  /\ (~ (exists k, interior_space text k) -> laid_out = text).
Proof.
  cbn zeta. rewrite _optimize_font_size_unfold. cbn zeta. cbn [snd].
  unfold layout_lines.
  destruct (max_text_len <? _)%Z.
  - destruct ((3 <=? Z.of_nat (String.length text))%Z
              && str_contains " " (slice_interior text)) eqn:Eguard.
    + apply guard_interior_space in Eguard.
      destruct (_split_cut text Eguard) as (j & [Hj _] & ->).
      destruct Hj as (_ & _ & Hget). pose proof (get_cut j _ text Hget) as Hcut.
      cbn [String.concat]. split; [|split].
      * right. eexists. eexists. split; [exact Hcut | reflexivity].
      * rewrite Hcut at 3. rewrite !length_append. reflexivity.
      * intros Hno. contradiction.
    + assert (Hsingle : _split text = [text])
        by (unfold _split; now rewrite Eguard).
      rewrite Hsingle. cbn [String.concat]. repeat split; now left.
  - cbn [String.concat]. repeat split; now left.
Qed.

(** ** What the variant key cannot tell apart *)

Lemma hash_loop_formatted `{Hashlib} (vs : list value) :
  forall (ws : list value) (sha : md5_state) (index : nat),
    map (fun v => format_value (or_empty v)) vs
    = map (fun v => format_value (or_empty v)) ws ->
    Image.hash_loop sha index vs = Image.hash_loop sha index ws.
Proof.
  unfold or_empty.
  induction vs as [|v vs IH]; intros [|w ws] sha index E;
    try discriminate E; [reflexivity|].
  cbn [map] in E. injection E as Ev Evs.
  cbn [Image.hash_loop]. rewrite Ev. now apply IH.
Qed.

(** X8. [Image.hash] sees a field only through the text it formats to:
    two lists of fields whose elements format alike, after [or ""], have
    the same digest. The width 500 given as the integer and as the string
    ["500"] cannot be told apart, nor can [True] and the string ["True"]. *)
Theorem hash_sees_formatted_text `{Hashlib} (vs ws : list value) :
  map (fun v => format_value (or_empty v)) vs
  = map (fun v => format_value (or_empty v)) ws ->
  Image.hash vs = Image.hash ws.
Proof.
  intros E. unfold Image.hash. f_equal. now apply hash_loop_formatted.
Qed.

Lemma hash_sees_formatted_text_witness :
  Image.hash (H := spelling_hash)
    [VStr "alt"; VNone; VBool true; VInt 500; VInt 0]
  = Image.hash (H := spelling_hash)
      [VObj true "alt"; VStr ""; VStr "True"; VStr "500"; VNone].
Proof. apply hash_sees_formatted_text. reflexivity. Defined.

Lemma encode_utf8_app (a b : string) :
  encode_utf8 (a ++ b) = (encode_utf8 a ++ encode_utf8 b)%list.
Proof.
  induction a as [|c a IH]; [reflexivity|].
  change (String c a ++ b)%string with (String c (a ++ b)%string).
  cbn [encode_utf8]. rewrite IH. apply app_assoc.
Qed.

(** With a streaming hash object, feeding chunks one by one is feeding
    their concatenation. *)
Lemma fold_update_concat `{Hashlib} (chunks : list string) :
  streaming ->
  forall (chunk : string) (sha : md5_state),
    fold_left update (map encode_utf8 (chunk :: chunks)) sha
    = update sha (encode_utf8 (String.concat "" (chunk :: chunks))).
Proof.
  intros Hstream. induction chunks as [|next chunks IH]; intros chunk sha.
  - reflexivity.
  - change (fold_left update (map encode_utf8 (chunk :: next :: chunks)) sha)
      with (fold_left update (map encode_utf8 (next :: chunks))
              (update sha (encode_utf8 chunk))).
    rewrite IH, Hstream.
    change (String.concat "" (chunk :: next :: chunks))
      with (chunk ++ String.concat "" (next :: chunks))%string.
    now rewrite encode_utf8_app.
Qed.

Lemma serialize_field_nonempty (index : nat) (v : value) (rest : string) :
  (serialize_field index v ++ rest)%string <> EmptyString.
Proof.
  unfold serialize_field. rewrite <- string_app_assoc.
  destruct (str_of_int (Z.of_nat index)); discriminate.
Qed.

Lemma fed_text_empty (fields : list value) :
  fed_text fields = EmptyString -> fields = [].
Proof.
  destruct fields as [|v fields]; [reflexivity|]. unfold fed_text.
  cbn [imap]. intros E. exfalso.
  destruct (imap (serialize_field ∘ S) fields) as [|chunk chunks].
  - cbn [String.concat] in E.
    apply (serialize_field_nonempty 0 v EmptyString).
    rewrite <- E at 2. clear E.
    induction (serialize_field 0 v) as [|c s IH]; [reflexivity|].
    change (String c s ++ "")%string with (String c (s ++ "")%string).
    now rewrite IH.
  - exact (serialize_field_nonempty 0 v _ E).
Qed.

(** X9. With a streaming hash object (as [hashlib]'s), [Image.hash]
    depends only on the concatenation of the [index:value] chunks. Nothing
    separates one chunk from the next, so field lists that differ can get
    the same digest: style ["a1:b"] with no font, and style ["a"] with font
    ["b1:"], both feed ["0:a1:b1:"]. *)
Theorem hash_sees_concatenated_chunks `{Hashlib} (vs ws : list value) :
  streaming ->
  fed_text vs = fed_text ws ->
  Image.hash vs = Image.hash ws.
Proof.
  intros Hstream E. rewrite !hash_digest_of_fields. unfold digest_of_fields.
  f_equal. unfold fed_text in E.
  destruct (imap serialize_field vs) as [|c cs] eqn:Evs;
    destruct (imap serialize_field ws) as [|d ds] eqn:Ews.
  - reflexivity.
  - assert (Hvs : vs = []) by (destruct vs; [reflexivity | discriminate Evs]).
    assert (Hws : ws = []).
    { apply fed_text_empty. unfold fed_text. rewrite Ews. now rewrite <- E. }
    subst. discriminate Ews.
  - assert (Hws : ws = []) by (destruct ws; [reflexivity | discriminate Ews]).
    assert (Hvs : vs = []).
    { apply fed_text_empty. unfold fed_text. rewrite Evs. exact E. }
    subst. discriminate Evs.
  - rewrite !fold_update_concat by exact Hstream. now rewrite E.
Qed.

Lemma spelling_hash_streaming : streaming (H := spelling_hash).
Proof. intros sha a b. symmetry. apply app_assoc. Qed.

Lemma hash_sees_concatenated_chunks_witness :
  Image.hash (H := spelling_hash)
    [VStr "a1:b"; VNone; VStr ""; VNone; VNone]
  = Image.hash (H := spelling_hash)
      [VStr "a"; VStr "b1:"; VStr ""; VNone; VNone].
Proof.
  apply hash_sees_concatenated_chunks.
  - exact spelling_hash_streaming.
  - reflexivity.
Defined.

(** ** Absolute components *)

(** X10. A text path that starts with the separator is taken by
    [os.path.join] as absolute: with a non-empty root, [Image.path] is then
    built on the text path alone, and neither the root nor the template key
    is part of it. *)
Theorem path_absolute_text_path `{Hashlib} (self : Image.t) (r : string) :
  Image.root self = Some r -> r <> EmptyString ->
  startswith_sep (Image.text_path self) = true ->
  Image.path self
  = Some (Image.text_path self
          ++ (if py_any (style_fields self)
              then "#" ++ Image.hash (style_fields self) ++ ".img"
              else ".img"))%string.
Proof.
  intros Hroot Hr Habs. rewrite (path_unfold self r Hroot Hr). cbn zeta.
  assert (Hbase : os_path_join r [Image.template_key self; Image.text_path self]
                  = Image.text_path self).
  { unfold os_path_join. cbn [fold_left]. now rewrite Habs. }
  rewrite Hbase. now destruct (py_any (style_fields self)).
Qed.

Lemma path_absolute_text_path_witness :
  Image.path (H := spelling_hash)
    (Image.__init__ "iw" "/etc/cron.d/x" (Some "images")
       VNone VNone None (VStr ""))
  = Some "/etc/cron.d/x.img".
Proof.
  apply (path_absolute_text_path (H := spelling_hash)
           (Image.__init__ "iw" "/etc/cron.d/x" (Some "images")
              VNone VNone None (VStr "")) "images").
  - reflexivity.
  - discriminate.
  - reflexivity.
Defined.

(** ** Outlined text *)

(** Drawing keeps the frame and ends with the white text. *)
Lemma _draw_outlined_text_white_top (draw_image image : ImageFile.t)
    (text_position : num * num) (text : string) (font : FreeTypeFont)
    (font_size : Z) :
  _draw_outlined_text draw_image text_position text font font_size = Ok image ->
  ImageFile.mode image = ImageFile.mode draw_image
  /\ ImageFile.size image = ImageFile.size draw_image
  /\ exists below : ImageFile.raster,
       ImageFile.pixels image
       = ImageFile.Text below text_position text (255, 255, 255) font "center".
Proof.
  intros Hrun.
  destruct (_draw_outlined_text_keeps _ _ _ _ _ _ Hrun) as (_ & Hs & Hm).
  repeat split; try assumption.
  unfold _draw_outlined_text in Hrun. bind_inv Hrun. injection Hrun as <-.
  eexists. reflexivity.
Qed.

(** X11. [_draw_outlined_text] changes pixels only: mode, format tag and
    size of the image stay as they were, and the last thing painted is the
    white text at the position given, on top of every black copy. *)
Theorem _draw_outlined_text_white_on_top (draw_image image : ImageFile.t)
    (text_position : num * num) (text : string) (font : FreeTypeFont)
    (font_size : Z) :
  _draw_outlined_text draw_image text_position text font font_size = Ok image ->
  ImageFile.mode image = ImageFile.mode draw_image
  /\ ImageFile.format image = ImageFile.format draw_image
  /\ ImageFile.size image = ImageFile.size draw_image
  /\ exists below : ImageFile.raster,
       ImageFile.pixels image
       = ImageFile.Text below text_position text (255, 255, 255) font "center".
Proof.
  intros Hrun.
  destruct (_draw_outlined_text_keeps _ _ _ _ _ _ Hrun) as (Hf & Hs & Hm).
  repeat split; try assumption.
  unfold _draw_outlined_text in Hrun. bind_inv Hrun. injection Hrun as <-.
  eexists. reflexivity.
Qed.

Lemma _draw_outlined_text_white_on_top_witness :
  exists image : ImageFile.t,
    _draw_outlined_text
      {| ImageFile.mode := "RGB"; ImageFile.format := Some "PNG";
         ImageFile.size := (600, 450);
         ImageFile.pixels := ImageFile.Blank "RGB" (600, 450) |}
      (NInt 3, NInt 430) "memegen.link" (truetype "impact.ttf" 15) 15
    = Ok image
    /\ ImageFile.mode image = "RGB"
    /\ ImageFile.format image = Some "PNG"
    /\ ImageFile.size image = (600, 450)
    /\ exists below : ImageFile.raster,
         ImageFile.pixels image
         = ImageFile.Text below (NInt 3, NInt 430) "memegen.link"
             (255, 255, 255) (truetype "impact.ttf" 15) "center".
Proof.
  eexists. split.
  - vm_compute. reflexivity.
  - apply (_draw_outlined_text_white_on_top
             {| ImageFile.mode := "RGB"; ImageFile.format := Some "PNG";
                ImageFile.size := (600, 450);
                ImageFile.pixels := ImageFile.Blank "RGB" (600, 450) |}
             _ (NInt 3, NInt 430) "memegen.link"
             (truetype "impact.ttf" 15) 15).
    vm_compute. reflexivity.
Defined.

(** A loop whose body never raises is a fold. *)
Lemma for_each_fold {S A : Type} (f : S -> A -> S)
    (body : S -> A -> result S) (items : list A) :
  (forall s a, body s a = Ok (f s a)) ->
  forall state, for_each items state body = Ok (fold_left f items state).
Proof.
  intros Hbody. induction items as [|item items IH]; intros state;
    cbn [for_each fold_left]; [reflexivity|].
  rewrite Hbody. cbn [bind]. apply IH.
Qed.

Lemma length_py_range (start stop : Z) :
  length (py_range start stop) = Z.to_nat (stop - start).
Proof. unfold py_range. apply length_seqZ. Qed.

Lemma length_outline_offsets (outline_range : Z) :
  0 <= outline_range ->
  Z.of_nat (length (outline_offsets outline_range))
  = (2 * outline_range + 1) * (2 * outline_range + 1).
Proof.
  intros Hr. unfold outline_offsets.
  set (axis := py_range (- outline_range) (outline_range + 1)).
  assert (Haxis : Z.of_nat (length axis) = 2 * outline_range + 1)
    by (unfold axis; rewrite length_py_range; lia).
  assert (Hflat : forall xs : list Z,
             length (flat_map (fun x => map (fun y => (x, y)) axis) xs)
             = (length xs * length axis)%nat).
  { induction xs as [|x xs IH]; [reflexivity|].
    cbn [flat_map]. rewrite length_app, length_map, IH. reflexivity. }
  rewrite Hflat. nia.
Qed.

Lemma pixels_fold_text (left upper : Z) (text : string) (font : FreeTypeFont)
    (offsets : list (Z * Z)) :
  forall image : ImageFile.t,
    let painted :=
      fold_left
        (fun s offset =>
           ImageFile.multiline_text s
             (NInt (left + fst offset), NInt (upper + snd offset))
             text (0, 0, 0) font "center")
        offsets image in
    ImageFile.mode painted = ImageFile.mode image
    /\ ImageFile.format painted = ImageFile.format image
    /\ ImageFile.size painted = ImageFile.size image
    /\ ImageFile.pixels painted
       = black_copies (ImageFile.pixels image) left upper text font offsets.
Proof.
  unfold black_copies.
  induction offsets as [|offset offsets IH]; intros image; cbn [fold_left].
  - now repeat split.
  - specialize (IH (ImageFile.multiline_text image
                      (NInt (left + fst offset), NInt (upper + snd offset))
                      text (0, 0, 0) font "center")).
    cbn zeta in IH. exact IH.
Qed.

Lemma fold_flat_map {S A B : Type} (f : S -> B -> S) (g : A -> list B)
    (xs : list A) :
  forall s : S,
    fold_left f (flat_map g xs) s
    = fold_left (fun s x => fold_left f (g x) s) xs s.
Proof.
  induction xs as [|x xs IH]; intros s; cbn [flat_map fold_left];
    [reflexivity|].
  now rewrite fold_left_app, IH.
Qed.

Lemma fold_map {S A B : Type} (f : S -> B -> S) (h : A -> B) (xs : list A) :
  forall s : S,
    fold_left f (map h xs) s = fold_left (fun s x => f s (h x)) xs s.
Proof.
  induction xs as [|x xs IH]; intros s; cbn [map fold_left]; [reflexivity|].
  apply IH.
Qed.

Lemma fold_left_pointwise {S A : Type} (f g : S -> A -> S) (xs : list A) :
  (forall s x, f s x = g s x) ->
  forall s : S, fold_left f xs s = fold_left g xs s.
Proof.
  intros Hfg. induction xs as [|x xs IH]; intros s; cbn [fold_left];
    [reflexivity|].
  rewrite Hfg. apply IH.
Qed.

(** X12. When [_draw_outlined_text] returns from an integer position (as
    the watermark's), then with [r = max(1, font_size // 25)] the pixels
    are the old pixels under one black copy of the text for each of the
    [(2r + 1) * (2r + 1)] offsets of the square from [-r] to [r], visited
    row by row, and the white text on top. *)
Theorem _draw_outlined_text_at_integers (draw_image image : ImageFile.t)
    (left upper : Z) (text : string) (font : FreeTypeFont) (font_size : Z) :
  _draw_outlined_text draw_image (NInt left, NInt upper) text font font_size
  = Ok image ->
  let r := Z.max 1 (font_size / 25) in
  ImageFile.pixels image
  = ImageFile.Text
      (black_copies (ImageFile.pixels draw_image) left upper text font
         (outline_offsets r))
      (NInt left, NInt upper) text (255, 255, 255) font "center"
  /\ Z.of_nat (length (outline_offsets r)) = (2 * r + 1) * (2 * r + 1)
  /\ Forall (fun offset => - r <= fst offset <= r /\ - r <= snd offset <= r)
       (outline_offsets r).
Proof.
  intros Hrun r. unfold _draw_outlined_text in Hrun. fold r in Hrun.
  set (axis := py_range (- r) (r + 1)) in *.
  set (paint := fun (s : ImageFile.t) (offset : Z * Z) =>
                  ImageFile.multiline_text s
                    (NInt (left + fst offset), NInt (upper + snd offset))
                    text (0, 0, 0) font "center").
  rewrite (for_each_fold
             (fun s x => fold_left (fun s y => paint s (x, y)) axis s))
    in Hrun.
  2:{ intros s x. apply for_each_fold. intros s' y. reflexivity. }
  cbn [bind] in Hrun. injection Hrun as <-.
  assert (Hfold :
            fold_left (fun s x => fold_left (fun s y => paint s (x, y)) axis s)
              axis draw_image
            = fold_left paint (outline_offsets r) draw_image).
  { unfold outline_offsets. fold axis. rewrite fold_flat_map.
    apply fold_left_pointwise. intros s x. symmetry. apply fold_map. }
  rewrite Hfold.
  destruct (pixels_fold_text left upper text font (outline_offsets r)
              draw_image) as (_ & _ & _ & Hp).
  cbn zeta in Hp. fold paint in Hp.
  cbn [ImageFile.multiline_text ImageFile.pixels].
  rewrite Hp. split; [reflexivity|]. split.
  - apply length_outline_offsets. lia.
  - apply List.Forall_forall. intros [x y] Hin. unfold outline_offsets in Hin.
    apply in_flat_map in Hin as (x' & Hx & Hy).
    apply in_map_iff in Hy as (y' & [= <- <-] & Hy).
    unfold py_range in Hx, Hy.
    apply list_elem_of_In, elem_of_seqZ in Hx.
    apply list_elem_of_In, elem_of_seqZ in Hy. cbn [fst snd]. lia.
Qed.

Lemma _draw_outlined_text_at_integers_witness :
  exists image : ImageFile.t,
    _draw_outlined_text
      {| ImageFile.mode := "RGB"; ImageFile.format := Some "PNG";
         ImageFile.size := (600, 450);
         ImageFile.pixels := ImageFile.Blank "RGB" (600, 450) |}
      (NInt 3, NInt 430) "memegen.link" (truetype "impact.ttf" 15) 15
    = Ok image
    /\ ImageFile.pixels image
       = ImageFile.Text
           (black_copies (ImageFile.Blank "RGB" (600, 450)) 3 430
              "memegen.link" (truetype "impact.ttf" 15) (outline_offsets 1))
           (NInt 3, NInt 430) "memegen.link" (255, 255, 255)
           (truetype "impact.ttf" 15) "center"
    /\ Z.of_nat (length (outline_offsets 1)) = 9.
Proof.
  eexists. split; [vm_compute; reflexivity|].
  destruct (_draw_outlined_text_at_integers
              {| ImageFile.mode := "RGB"; ImageFile.format := Some "PNG";
                 ImageFile.size := (600, 450);
                 ImageFile.pixels := ImageFile.Blank "RGB" (600, 450) |}
              _ 3 430 "memegen.link" (truetype "impact.ttf" 15) 15
              ltac:(vm_compute; reflexivity))
    as (Hpixels & Hcount & _).
  split; [exact Hpixels | exact Hcount].
Defined.

(** ** Padding to the target box *)

(** X13. When [_add_blurred_background] returns, the image is exactly the
    target box, tagged PNG, in the mode of the background: the background
    resized to the box, darkened and blurred, with the border pasted on
    it. The border is the foreground plus 2 pixels each way, capped at the
    box; it lies inside the box and is centred to the pixel, and a
    foreground no larger than the box sits 0 or 1 pixel inside the
    border. *)
Theorem _add_blurred_background_centred
    (foreground background image : ImageFile.t) (width height : Z) :
  _add_blurred_background foreground background width height = Ok image ->
  let base_width := fst (ImageFile.size foreground) in
  let base_height := snd (ImageFile.size foreground) in
  let border_width := Z.min width (base_width + 2) in
  let border_height := Z.min height (base_height + 2) in
  let inset := ((border_width - base_width) / 2,
                (border_height - base_height) / 2) in
  let offset := ((width - border_width) / 2, (height - border_height) / 2) in
  ImageFile.size image = (width, height)
  /\ ImageFile.format image = Some "PNG"
  /\ ImageFile.mode image = ImageFile.mode background
  /\ ImageFile.pixels image
     = ImageFile.Pasted
         (ImageFile.GaussianBlur 5
            (ImageFile.Scaled darkening
               (ImageFile.Resized (width, height) ImageFile.LANCZOS
                  (ImageFile.pixels background))))
         (ImageFile.Pasted
            (ImageFile.Blank "RGB" (border_width, border_height))
            (ImageFile.pixels foreground) inset)
         offset
  /\ 0 <= fst offset /\ fst offset + border_width <= width
  /\ 0 <= snd offset /\ snd offset + border_height <= height
  /\ width - border_width - 1 <= 2 * fst offset <= width - border_width
  /\ height - border_height - 1 <= 2 * snd offset <= height - border_height
  /\ (base_width <= width -> 0 <= fst inset <= 1)
  /\ (base_height <= height -> 0 <= snd inset <= 1).
Proof.
  unfold _add_blurred_background.
  destruct (ImageFile.size foreground) as [base_width base_height].
  intros Hrun. bind_inv Hrun. bind_inv Hrun.
  unfold ImageFile.new in E. destruct (_ || _); [discriminate|].
  injection E as <-.
  unfold ImageFile.resize in E0. destruct (_ || _); [discriminate|].
  injection E0 as <-.
  cbn in Hrun. injection Hrun as <-. cbn zeta.
  cbn [ImageFile.size ImageFile.format ImageFile.mode ImageFile.pixels
       fst snd].
  pose proof (Z.div_mod (width - Z.min width (base_width + 2)) 2).
  pose proof (Z.mod_pos_bound (width - Z.min width (base_width + 2)) 2).
  pose proof (Z.div_mod (height - Z.min height (base_height + 2)) 2).
  pose proof (Z.mod_pos_bound (height - Z.min height (base_height + 2)) 2).
  pose proof (Z.div_mod (Z.min width (base_width + 2) - base_width) 2).
  pose proof (Z.mod_pos_bound (Z.min width (base_width + 2) - base_width) 2).
  pose proof (Z.div_mod (Z.min height (base_height + 2) - base_height) 2).
  pose proof (Z.mod_pos_bound (Z.min height (base_height + 2) - base_height) 2).
  repeat split; try reflexivity; try lia.
Qed.

Lemma _add_blurred_background_centred_witness :
  exists image : ImageFile.t,
    _add_blurred_background
      {| ImageFile.mode := "RGB"; ImageFile.format := Some "PNG";
         ImageFile.size := (500, 375);
         ImageFile.pixels := ImageFile.Decoded "captioned" |}
      {| ImageFile.mode := "RGB"; ImageFile.format := Some "JPEG";
         ImageFile.size := (400, 300);
         ImageFile.pixels := ImageFile.Decoded "photo.jpg" |}
      500 500 = Ok image
    /\ ImageFile.size image = (500, 500)
    /\ ImageFile.pixels image
       = ImageFile.Pasted
           (ImageFile.GaussianBlur 5
              (ImageFile.Scaled darkening
                 (ImageFile.Resized (500, 500) ImageFile.LANCZOS
                    (ImageFile.Decoded "photo.jpg"))))
           (ImageFile.Pasted (ImageFile.Blank "RGB" (500, 377))
              (ImageFile.Decoded "captioned") (0, 1))
           (0, 61).
Proof.
  eexists. split; [vm_compute; reflexivity|].
  destruct (_add_blurred_background_centred
              {| ImageFile.mode := "RGB"; ImageFile.format := Some "PNG";
                 ImageFile.size := (500, 375);
                 ImageFile.pixels := ImageFile.Decoded "captioned" |}
              {| ImageFile.mode := "RGB"; ImageFile.format := Some "JPEG";
                 ImageFile.size := (400, 300);
                 ImageFile.pixels := ImageFile.Decoded "photo.jpg" |}
              _ 500 500 ltac:(vm_compute; reflexivity))
    as (Hsize & _ & _ & Hpixels & _).
  split; [exact Hsize | exact Hpixels].
Defined.

(** ** The image [_generate] returns *)

Lemma _add_blurred_background_mode (foreground background image : ImageFile.t)
    (width height : Z) :
  _add_blurred_background foreground background width height = Ok image ->
  ImageFile.mode image = ImageFile.mode background.
Proof.
  unfold _add_blurred_background.
  destruct (ImageFile.size foreground) as [base_width base_height].
  intros Hrun. bind_inv Hrun. bind_inv Hrun.
  unfold ImageFile.resize in E0.
  destruct (_ || _); [discriminate|]. injection E0 as <-.
  cbn in Hrun. injection Hrun as <-. reflexivity.
Qed.

Lemma resize_ok (image resized : ImageFile.t) (new_size : Z * Z)
    (resample : string) :
  ImageFile.resize image new_size resample = Ok resized ->
  ImageFile.mode resized = ImageFile.mode image
  /\ ImageFile.size resized = new_size.
Proof.
  unfold ImageFile.resize. destruct (_ || _); [discriminate|].
  intros [= <-]. now split.
Qed.

(** The stages of a run of [_generate] that returns: the mode it works in,
    the size it resizes to, and the watermark it paints last. *)
Lemma _generate_stages `{Files} `{TextMeasure}
    (top bottom font_path background : string) (width height : option Z)
    (watermark watermark_font_path : string)
    (opened image : ImageFile.t) :
  stored !! background = Some opened ->
  _generate top bottom font_path background width height
    watermark watermark_font_path = Ok image ->
  ImageFile.mode image = working_mode opened
  /\ (given width = true -> given height = false ->
      fst (ImageFile.size image) = default 0 width)
  /\ (given width = false -> given height = true ->
      snd (ImageFile.size image) = default 0 height)
  /\ (given width = false -> given height = false ->
      fst (ImageFile.size image) = 600)
  /\ (watermark <> EmptyString ->
      exists below : ImageFile.raster,
        ImageFile.pixels image
        = ImageFile.Text below
            (NInt 3, NInt (snd (ImageFile.size image) - 20))
            watermark (255, 255, 255)
            (truetype watermark_font_path 15) "center").
Proof.
  intros Hstored. unfold _generate, ImageFile_open. rewrite Hstored.
  cbn [bind]. intros Hrun.
  set (converted :=
         if negb (String.eqb (ImageFile.mode opened) "RGB"
                  || String.eqb (ImageFile.mode opened) "RGBA")
         then
           if bool_decide (ImageFile.format opened = Some "JPEG")
           then ImageFile.set_format (ImageFile.convert opened "RGB") "JPEG"
           else ImageFile.set_format (ImageFile.convert opened "RGBA") "PNG"
         else opened) in *.
  assert (Hmode : ImageFile.mode converted = working_mode opened).
  { unfold converted, working_mode.
    destruct (String.eqb (ImageFile.mode opened) "RGB"
              || String.eqb (ImageFile.mode opened) "RGBA"); cbn [negb];
      [reflexivity|].
    now destruct (bool_decide (ImageFile.format opened = Some "JPEG")). }
  bind_inv Hrun. bind_inv Hrun. bind_inv Hrun. bind_inv Hrun.
  bind_inv Hrun. bind_inv Hrun. bind_inv Hrun.
  destruct (_optimize_font_size font_path top _ _ _)
    as [top_font_size top_lines].
  destruct (_optimize_font_size font_path bottom _ _ _)
    as [bottom_font_size bottom_lines].
  repeat bind_inv Hrun. injection Hrun as <-.
  apply resize_ok in E1 as [M1 S1].
  destruct (_draw_outlined_text_keeps _ _ _ _ _ _ E14) as (_ & S14 & M14).
  destruct (_draw_outlined_text_keeps _ _ _ _ _ _ E15) as (_ & S15 & M15).
  cbn [ImageFile.set_format ImageFile.mode ImageFile.size] in S14, M14.
  assert (Hpadded :
            ImageFile.mode v16 = working_mode opened
            /\ (given width && given height = false ->
                ImageFile.size v16 = v0)).
  { destruct (given width && given height).
    - apply _add_blurred_background_mode in E16. split; [congruence|].
      discriminate.
    - injection E16 as <-. split; [congruence|]. intros _. congruence. }
  destruct Hpadded as [M16 S16].
  assert (Hmarked :
            ImageFile.mode v17 = ImageFile.mode v16
            /\ ImageFile.size v17 = ImageFile.size v16
            /\ (watermark <> EmptyString ->
                exists below : ImageFile.raster,
                  ImageFile.pixels v17
                  = ImageFile.Text below
                      (NInt 3, NInt (snd (ImageFile.size v17) - 20))
                      watermark (255, 255, 255)
                      (truetype watermark_font_path 15) "center")).
  { destruct (String.eqb watermark "") eqn:Emark; cbn [negb] in E17.
    - injection E17 as <-. repeat split. intros Hne.
      apply String.eqb_eq in Emark. contradiction.
    - destruct (_draw_outlined_text_white_top _ _ _ _ _ _ E17)
        as (Hm & Hs & below & Hp).
      repeat split; try assumption. intros _. exists below.
      rewrite Hs. exact Hp. }
  destruct Hmarked as (M17 & S17 & P17).
  split; [congruence|].
  assert (Hdims :
            (given width = true -> given height = false ->
             fst v0 = default 0 width)
            /\ (given width = false -> given height = true ->
                snd v0 = default 0 height)
            /\ (given width = false -> given height = false ->
                fst v0 = 600)).
  { destruct (given width), (given height); cbn [andb] in E0;
      repeat split; try discriminate; intros _ _;
      bind_inv E0; bind_inv E0; injection E0 as <-; reflexivity. }
  destruct Hdims as (D1 & D2 & D3).
  split; [|split; [|split]].
  - intros Hw Hh. rewrite S17, S16 by (now rewrite Hw, Hh). now apply D1.
  - intros Hw Hh. rewrite S17, S16 by (now rewrite Hw, Hh). now apply D2.
  - intros Hw Hh. rewrite S17, S16 by (now rewrite Hw, Hh). now apply D3.
  - exact P17.
Qed.

Lemma _generate_opened `{Files} `{TextMeasure}
    (top bottom font_path background : string) (width height : option Z)
    (watermark watermark_font_path : string) (image : ImageFile.t) :
  _generate top bottom font_path background width height
    watermark watermark_font_path = Ok image ->
  exists opened : ImageFile.t, stored !! background = Some opened.
Proof.
  unfold _generate, ImageFile_open.
  destruct (stored !! background) as [opened|]; [eauto | discriminate].
Qed.

(** X14. The image [_generate] returns is in mode RGB or RGBA: the mode
    of the background if that is one of the two, RGB for a JPEG background
    in another mode, and RGBA for any other background. *)
Theorem _generate_mode `{Files} `{TextMeasure}
    (top bottom font_path background : string) (width height : option Z)
    (watermark watermark_font_path : string) (opened image : ImageFile.t) :
  stored !! background = Some opened ->
  _generate top bottom font_path background width height
    watermark watermark_font_path = Ok image ->
  ImageFile.mode image = working_mode opened
  /\ (ImageFile.mode image = "RGB" \/ ImageFile.mode image = "RGBA").
Proof.
  intros Hstored Hrun.
  destruct (_generate_stages _ _ _ _ _ _ _ _ _ _ Hstored Hrun) as [Hmode _].
  split; [exact Hmode|]. rewrite Hmode. unfold working_mode.
  destruct (String.eqb (ImageFile.mode opened) "RGB") eqn:Ergb.
  - apply String.eqb_eq in Ergb. cbn [orb]. now left.
  - cbn [orb]. destruct (String.eqb (ImageFile.mode opened) "RGBA") eqn:Ergba.
    + apply String.eqb_eq in Ergba. now right.
    + destruct (bool_decide _); [now left | now right].
Qed.

Lemma _generate_mode_witness :
  exists opened image : ImageFile.t,
    stored (Files := sample_files) !! "anim.gif" = Some opened
    /\ ImageFile.mode opened = "P"
    /\ _generate (H := sample_files) (H0 := fixed_pitch)
         "TOP TEXT" "BOTTOM TEXT" "impact.ttf" "anim.gif" (Some 320) None
         "" "impact.ttf" = Ok image
    /\ ImageFile.mode image = working_mode opened
    /\ (ImageFile.mode image = "RGB" \/ ImageFile.mode image = "RGBA").
Proof.
  eexists. eexists. split; [vm_compute; reflexivity|].
  split; [reflexivity|]. split; [vm_compute; reflexivity|].
  apply (_generate_mode (H := sample_files) (H0 := fixed_pitch)
           "TOP TEXT" "BOTTOM TEXT" "impact.ttf" "anim.gif" (Some 320) None
           "" "impact.ttf").
  - vm_compute. reflexivity.
  - vm_compute. reflexivity.
Defined.

(** X15. Without a complete target box the image [_generate] returns has
    the size the background was resized to: exactly the target width when
    only a width is given, exactly the target height when only a height is
    given, and a width of 600 when neither is (a target of 0 counting as
    not given). *)
Theorem _generate_size_without_box `{Files} `{TextMeasure}
    (top bottom font_path background : string) (width height : option Z)
    (watermark watermark_font_path : string) (image : ImageFile.t) :
  _generate top bottom font_path background width height
    watermark watermark_font_path = Ok image ->
  (forall w, width = Some w -> w <> 0 -> given height = false ->
             fst (ImageFile.size image) = w)
  /\ (forall h, height = Some h -> h <> 0 -> given width = false ->
                snd (ImageFile.size image) = h)
  /\ (given width = false -> given height = false ->
      fst (ImageFile.size image) = 600).
Proof.
  intros Hrun. destruct (_generate_opened _ _ _ _ _ _ _ _ _ Hrun)
    as [opened Hstored].
  destruct (_generate_stages _ _ _ _ _ _ _ _ _ _ Hstored Hrun)
    as (_ & Hw & Hh & Hnone & _).
  split; [|split].
  - intros w -> Hne Hheight. apply Hw; [|exact Hheight].
    cbn. now apply negb_true_iff, Z.eqb_neq.
  - intros h -> Hne Hwidth. apply Hh; [exact Hwidth|].
    cbn. now apply negb_true_iff, Z.eqb_neq.
  - exact Hnone.
Qed.

Lemma _generate_size_without_box_witness :
  exists image : ImageFile.t,
    _generate (H := sample_files) (H0 := fixed_pitch)
      "TOP TEXT" "BOTTOM TEXT" "impact.ttf" "photo.jpg" (Some 0) (Some 200)
      "" "impact.ttf" = Ok image
    /\ snd (ImageFile.size image) = 200.
Proof.
  eexists. split.
  - vm_compute. reflexivity.
  - apply (proj1 (proj2 (_generate_size_without_box
             (H := sample_files) (H0 := fixed_pitch)
             "TOP TEXT" "BOTTOM TEXT" "impact.ttf" "photo.jpg"
             (Some 0) (Some 200) "" "impact.ttf" _
             ltac:(vm_compute; reflexivity)))
             200 eq_refl).
    + discriminate.
    + reflexivity.
Defined.

(** X16. With a watermark, the last thing [_generate] paints is the
    watermark in white, at font size 15 in the watermark font, 3 pixels
    from the left edge and 20 pixels above the bottom edge of the image it
    returns, the padded one when a target box was given. *)
Theorem _generate_watermark_on_top `{Files} `{TextMeasure}
    (top bottom font_path background : string) (width height : option Z)
    (watermark watermark_font_path : string) (image : ImageFile.t) :
  watermark <> EmptyString ->
  _generate top bottom font_path background width height
    watermark watermark_font_path = Ok image ->
  exists below : ImageFile.raster,
    ImageFile.pixels image
    = ImageFile.Text below
        (NInt 3, NInt (snd (ImageFile.size image) - 20))
        watermark (255, 255, 255)
        (truetype watermark_font_path 15) "center".
Proof.
  intros Hmark Hrun. destruct (_generate_opened _ _ _ _ _ _ _ _ _ Hrun)
    as [opened Hstored].
  destruct (_generate_stages _ _ _ _ _ _ _ _ _ _ Hstored Hrun)
    as (_ & _ & _ & _ & Htop).
  now apply Htop.
Qed.

Lemma _generate_watermark_on_top_witness :
  exists (image : ImageFile.t) (below : ImageFile.raster),
    _generate (H := sample_files) (H0 := fixed_pitch)
      "TOP TEXT" "BOTTOM TEXT" "impact.ttf" "photo.jpg" (Some 500) (Some 500)
      "memegen.link" "tiny.ttf" = Ok image
    /\ ImageFile.pixels image
       = ImageFile.Text below (NInt 3, NInt 480) "memegen.link"
           (255, 255, 255) (truetype "tiny.ttf" 15) "center".
Proof.
  eexists.
  destruct (_generate_watermark_on_top (H := sample_files) (H0 := fixed_pitch)
              "TOP TEXT" "BOTTOM TEXT" "impact.ttf" "photo.jpg"
              (Some 500) (Some 500) "memegen.link" "tiny.ttf" _
              ltac:(discriminate) ltac:(vm_compute; reflexivity))
    as [below Hpixels].
  exists below. split; [vm_compute; reflexivity | exact Hpixels].
Defined.
